(** * progaExam: bank accounts and reversible operations

    A shallow embedding of [core/BankAccount.py] and [core/Operations.py].

    The two files are ordinary Python classes: instances are attribute
    dictionaries, private names ([self.__x]) are mangled with the name of the
    class whose body contains them, the operations reach into the account
    through its attributes, and the two id counters are module globals.  The
    embedding keeps exactly these mechanisms:

    - the heap maps addresses to instances (a class tag and a dictionary from
      attribute names to values) and to list objects;
    - attribute access is a dictionary lookup by name that raises
      [AttributeError] when the name is absent;
    - a name used in a function body is resolved by Python's scoping rule
      (assigned in the body and not declared [global] means local);
    - every method is a computation in a state-and-exception monad; an
      exception keeps the effects that happened before it was raised.

    [Decimal] values are modelled as exact rationals ([Q]): [VDec q] is a
    finite [Decimal] of value [q], and [+], [-], [*] are the exact
    operations.  Python's results agree with them as long as the exact
    result fits the default context ([in_context] below: at most 28
    significant digits, exponent in range); beyond that Python rounds, or
    raises [Overflow], and infinities and NaN are not values of the model.
    Theorems that state a computed balance for all amounts carry that
    condition as a hypothesis.  The [import]
    statements of the two modules are not modelled either: the development
    starts from a state in which both modules have run their top-level
    assignments. *)

From Stdlib Require Import ZArith QArith Qabs Lia Lqa.
From stdpp Require Import base option list strings pretty gmap.

Open Scope Z_scope.

(** ** Values, objects and the program state *)

Definition loc := positive.
Bind Scope positive_scope with loc.

(** The classes whose instances the program handles.  [CUser] is the class
    of [core/User.py] (an opaque collaborator); [CForeign] stands for every
    class that is none of the others. *)
Inductive cls :=
| CUser
| CBankAccount
| CDepositOperation
| CWithdrawalOperation
| CInterestAccrualOperation
| CForeign.

Inductive val :=
| VNone
| VInt (z : Z)
| VStr (s : string)
| VDec (q : Q)
| VRef (l : loc).

Inductive cell :=
| Instance (c : cls) (attrs : gmap string val)
| PyList (items : list val).

(** What [print] wrote.  The only [print] of the program is the warning of
    [DepositOperation.undo]; the argument is [str(self)]. *)
Inductive output :=
| NegativeAfterUndo (op : string).

Record state := State {
  heap : gmap loc cell;
  (** module globals of core.BankAccount and core.Operations, by name *)
  globals : gmap string val;
  stdout : list output
}.

(** The globals after both modules have run their top-level assignments
    ([id_counter = 0], [operation_id_counter = 0]). *)
Definition initial_globals : gmap string val :=
  <["id_counter" := VInt 0]> (<["operation_id_counter" := VInt 0]> ∅).

Definition initial_state : state :=
  {| heap := ∅; globals := initial_globals; stdout := [] |}.

Definition set_heap (h : gmap loc cell) (s : state) : state :=
  {| heap := h; globals := globals s; stdout := stdout s |}.

Definition set_globals (g : gmap string val) (s : state) : state :=
  {| heap := heap s; globals := g; stdout := stdout s |}.

(** ** Exceptions and the monad of computations *)

(** [NotModelled] is not a Python exception: it marks behaviour that lies
    outside the embedded fragment (arithmetic on operands that are not
    numbers, [str] of an object whose class is not in the source). *)
Inductive exn :=
| ValueError
| UnboundLocalError
| NameError
| AttributeError
| TypeError
| NotModelled.

Inductive res (A : Type) :=
| Ret (a : A)
| Raise (e : exn).
Arguments Ret {A} a.
Arguments Raise {A} e.

Definition M (A : Type) : Type := state -> res A * state.

Definition ret {A} (a : A) : M A := fun s => (Ret a, s).
Definition raise {A} (e : exn) : M A := fun s => (Raise e, s).
Definition bind {A B} (m : M A) (k : A -> M B) : M B :=
  fun s => match m s with
           | (Ret a, s') => k a s'
           | (Raise e, s') => (Raise e, s')
           end.

#[export] Instance M_ret : MRet M := @ret.
#[export] Instance M_bind : MBind M := fun A B k m => bind m k.

(** ** Attribute access *)

(** Name mangling of private names: inside the body of class [C] the name
    [__x] (two leading underscores, not ending in two underscores) denotes
    the attribute [_C__x]. *)
Definition ends_with_dunder (name : string) : bool :=
  let n := String.length name in
  String.eqb (String.substring (n - 2) 2 name) "__".

Definition mangle (class_name name : string) : string :=
  if String.prefix "__" name && negb (ends_with_dunder name)
  then "_" +:+ class_name +:+ name
  else name.

(** [getattr(v, name)] for an attribute that is not defined by the class
    itself: the instance dictionary decides. *)
Definition getattr (v : val) (name : string) : M val :=
  fun s =>
    match v with
    | VRef l =>
        match heap s !! l with
        | Some (Instance _ attrs) =>
            match attrs !! name with
            | Some x => (Ret x, s)
            | None => (Raise AttributeError, s)
            end
        | _ => (Raise AttributeError, s)
        end
    | _ => (Raise AttributeError, s)
    end.

(** The state in which the instance at [l] has [name] bound to [x]. *)
Definition with_attr (l : loc) (name : string) (x : val) (s : state) : state :=
  match heap s !! l with
  | Some (Instance c attrs) =>
      set_heap (<[l := Instance c (<[name := x]> attrs)]> (heap s)) s
  | _ => s
  end.

Definition setattr (v : val) (name : string) (x : val) : M unit :=
  fun s =>
    match v with
    | VRef l =>
        match heap s !! l with
        | Some (Instance _ _) => (Ret tt, with_attr l name x s)
        | _ => (Raise AttributeError, s)
        end
    | _ => (Raise AttributeError, s)
    end.

(** ** Names: locals and module globals *)

(** What the compiler knows about a function body: its parameters, the
    names the body assigns, and the names it declares [global]. *)
Record scoping := Scoping {
  params : list string;
  assigned : list string;
  declared_global : list string
}.

Inductive scope := Local | Global.

(** Python's rule: a name that is a parameter or is assigned anywhere in
    the body is local to the function, unless the body declares it
    [global]. *)
Definition scope_of (f : scoping) (x : string) : scope :=
  if bool_decide (x ∈ declared_global f) then Global
  else if bool_decide (x ∈ params f ++ assigned f) then Local
  else Global.

(** Reading a name.  An unbound local raises [UnboundLocalError]; the
    module global of the same name is not consulted. *)
Definition load_name (f : scoping) (frame : gmap string val) (x : string) : M val :=
  fun s =>
    match scope_of f x with
    | Local =>
        match frame !! x with
        | Some v => (Ret v, s)
        | None => (Raise UnboundLocalError, s)
        end
    | Global =>
        match globals s !! x with
        | Some v => (Ret v, s)
        | None => (Raise NameError, s)
        end
    end.

(** Writing a name; the result is the frame after the write. *)
Definition store_name (f : scoping) (frame : gmap string val) (x : string) (v : val)
  : M (gmap string val) :=
  fun s =>
    match scope_of f x with
    | Local => (Ret (<[x := v]> frame), s)
    | Global => (Ret frame, set_globals (<[x := v]> (globals s)) s)
    end.

(** ** Arithmetic and comparison *)

(** The default context of the [decimal] module: precision 28, exponents
    from [Emin] = -999999 to [Emax] = 999999, traps on [InvalidOperation],
    [DivisionByZero] and [Overflow].

    [in_context q]: [q] is [m * 10^e] for a coefficient [m] of at most 28
    digits and an exponent [e] between [Etiny] = [Emin] - 27 and [Emax] - 27.
    When the exact result of [+], [-] or [*] on two finite [Decimal]s is
    such a number, Python returns exactly that number: rounding to 28
    digits drops zeros only and the exponent is in range. *)
Definition in_context (q : Q) : Prop :=
  ∃ m e : Z,
    Z.abs m < 10 ^ 28 ∧ -1000026 ≤ e ∧ e ≤ 999972
    ∧ (q == inject_Z m * Qpower 10 e)%Q.

(** [below_overflow q]: [|q| < 10^Emax].  The product of two finite
    [Decimal]s whose exact value is such a number does not raise [Overflow]
    (it may be rounded). *)
Definition below_overflow (q : Q) : Prop :=
  (Qabs q < inject_Z (10 ^ 999999))%Q.

(** [+], [-], [*] on two finite [Decimal]s or two [int]s, without the
    rounding and the traps of the context: the exact result.  It is
    Python's result where [in_context] holds of it.  Every other pair of
    operands is outside the fragment. *)
Definition py_add (a b : val) : M val :=
  match a, b with
  | VDec x, VDec y => mret (VDec (x + y)%Q)
  | VInt x, VInt y => mret (VInt (x + y))
  | _, _ => raise NotModelled
  end.

Definition py_sub (a b : val) : M val :=
  match a, b with
  | VDec x, VDec y => mret (VDec (x - y)%Q)
  | VInt x, VInt y => mret (VInt (x - y))
  | _, _ => raise NotModelled
  end.

Definition py_mul (a b : val) : M val :=
  match a, b with
  | VDec x, VDec y => mret (VDec (x * y)%Q)
  | VInt x, VInt y => mret (VInt (x * y))
  | _, _ => raise NotModelled
  end.

(** [Qlt_bool x y] decides [x < y] on rationals. *)
Definition Qlt_bool (x y : Q) : bool := negb (Qle_bool y x).

(** [a < 0] for a finite [Decimal] or an [int] (on a NaN, which is not a
    value of the model, Python raises [InvalidOperation]). *)
Definition py_lt0 (a : val) : M bool :=
  match a with
  | VDec x => mret (Qlt_bool x 0)
  | VInt x => mret (x <? 0)
  | _ => raise NotModelled
  end.

(** [v != 'lit'] for a string literal: only an equal string is equal. *)
Definition py_ne_str (v : val) (lit : string) : bool :=
  match v with
  | VStr t => negb (String.eqb t lit)
  | _ => true
  end.

(** [x += v] on a plain name: load, add, store. *)
Definition aug_add_name (f : scoping) (frame : gmap string val) (x : string) (v : val)
  : M (gmap string val) :=
  old ← load_name f frame x;
  new ← py_add old v;
  store_name f frame x new.

(** ** Classes, lists and object creation *)

Definition class_of (v : val) (s : state) : option cls :=
  match v with
  | VRef l => match heap s !! l with
              | Some (Instance c _) => Some c
              | _ => None
              end
  | _ => None
  end.

(** [isinstance(v, User)] and [isinstance(v, BankAccount)]: the source
    declares no subclass of either. *)
Definition is_User (v : val) (s : state) : bool :=
  match class_of v s with Some CUser => true | _ => false end.

Definition is_BankAccount (v : val) (s : state) : bool :=
  match class_of v s with Some CBankAccount => true | _ => false end.

Definition isinstance_User (v : val) : M bool :=
  fun s => (Ret (is_User v s), s).

Definition isinstance_BankAccount (v : val) : M bool :=
  fun s => (Ret (is_BankAccount v s), s).

(** [isinstance(v, Decimal)] *)
Definition isinstance_Decimal (v : val) : bool :=
  match v with VDec _ => true | _ => false end.

(** The list display [[]]: a new list object. *)
Definition new_list : M val :=
  fun s =>
    let l := fresh (dom (heap s)) in
    (Ret (VRef l), set_heap (<[l := PyList []]> (heap s)) s).

(** [v.append(x)]: only list objects have the method. *)
Definition list_append (v : val) (x : val) : M unit :=
  fun s =>
    match v with
    | VRef l =>
        match heap s !! l with
        | Some (PyList xs) => (Ret tt, set_heap (<[l := PyList (xs ++ [x])]> (heap s)) s)
        | _ => (Raise AttributeError, s)
        end
    | _ => (Raise AttributeError, s)
    end.

(** The items a [for] loop over [v] visits.  Numbers, [None] and instances
    of the classes of the source are not iterable. *)
Definition iterate (v : val) : M (list val) :=
  fun s =>
    match v with
    | VRef l =>
        match heap s !! l with
        | Some (PyList xs) => (Ret xs, s)
        | Some (Instance (CUser | CForeign) _) => (Raise NotModelled, s)
        | _ => (Raise TypeError, s)
        end
    | VStr _ => (Raise NotModelled, s)
    | _ => (Raise TypeError, s)
    end.

(** The call [C(args)]: a new instance of [C] with an empty dictionary is
    handed to [__init__]; when [__init__] raises, the exception propagates
    to the caller, who gets no reference, and the instance, to which nothing
    refers, is released. *)
Definition construct (c : cls) (init : val -> M unit) : M val :=
  fun s =>
    let l := fresh (dom (heap s)) in
    match init (VRef l) (set_heap (<[l := Instance c ∅]> (heap s)) s) with
    | (Ret _, s') => (Ret (VRef l), s')
    | (Raise e, s') => (Raise e, set_heap (delete l (heap s')) s')
    end.

(** [print(...)] *)
Definition print (o : output) : M unit :=
  fun s => (Ret tt, {| heap := heap s; globals := globals s; stdout := stdout s ++ [o] |}).

(** The replacement field [{v}] of an f-string, for the values the source
    formats (ids). *)
Definition py_format (v : val) : M string :=
  match v with
  | VInt z => mret (pretty z)
  | VStr t => mret t
  | VNone => mret "None"
  | _ => raise NotModelled
  end.

(** ** class Operation (Operations.py, lines 7-57) *)

Module Operation.

(** [def __init__(self, content='')]: the body assigns
    [operation_id_counter] and has no [global] statement. *)
Definition __init___scoping : scoping :=
  {| params := ["self"; "content"];
     assigned := ["operation_id_counter"];
     declared_global := [] |}.

Definition __init__ (self content : val) : M unit :=
  let f := __init___scoping in
  let frame0 : gmap string val := <["self" := self]> (<["content" := content]> ∅) in
  (* operation_id_counter += 1 *)
  frame ← aug_add_name f frame0 "operation_id_counter" (VInt 1);
  (* self.__id = operation_id_counter *)
  i ← load_name f frame "operation_id_counter";
  setattr self (mangle "Operation" "__id") i;;
  (* self.__status = 'I' *)
  setattr self (mangle "Operation" "__status") (VStr "I");;
  (* self.__content = content *)
  setattr self (mangle "Operation" "__content") content.

(** The read-only properties. *)
Definition id (self : val) : M val :=
  getattr self (mangle "Operation" "__id").

Definition status (self : val) : M val :=
  getattr self (mangle "Operation" "__status").

(** [content] returns [self.__content]: the attribute of the instance when
    it has one, otherwise the class attribute [__content = ''] of line 16,
    which every instance of a subclass of [Operation] inherits. *)
Definition content (self : val) : M val :=
  fun s =>
    match self with
    | VRef l =>
        match heap s !! l with
        | Some (Instance _ attrs) =>
            match attrs !! mangle "Operation" "__content" with
            | Some x => (Ret x, s)
            | None => (Ret (VStr ""), s)
            end
        | _ => (Raise AttributeError, s)
        end
    | _ => (Raise AttributeError, s)
    end.

End Operation.

(** ** class DepositOperation(Operation) (Operations.py, lines 60-127) *)

Module DepositOperation.

Definition bank_account (self : val) : M val :=
  getattr self (mangle "DepositOperation" "__bank_account").

Definition value (self : val) : M val :=
  getattr self (mangle "DepositOperation" "__value").

Definition __init__ (self bank_account value content : val) : M unit :=
  ok ← isinstance_BankAccount bank_account;
  if negb ok then raise ValueError else
  if negb (isinstance_Decimal value) then raise ValueError else
  (* super().__init__(content=content) *)
  Operation.__init__ self content;;
  setattr self (mangle "DepositOperation" "__bank_account") bank_account;;
  setattr self (mangle "DepositOperation" "__value") value.

(** [f"{self.id}: DepositOperation"] *)
Definition __str__ (self : val) : M string :=
  i ← Operation.id self;
  t ← py_format i;
  mret (t +:+ ": DepositOperation").

Definition execute (self : val) : M bool :=
  st ← Operation.status self;
  if py_ne_str st "I" then mret false else
  (* self.bank_account._balance += self.value *)
  acc ← bank_account self;
  old ← getattr acc "_balance";
  v ← value self;
  new ← py_add old v;
  setattr acc "_balance" new;;
  (* self.bank_account._operation_history.append(self) *)
  acc ← bank_account self;
  h ← getattr acc "_operation_history";
  list_append h self;;
  (* self.__status = 'D' *)
  setattr self (mangle "DepositOperation" "__status") (VStr "D");;
  mret true.

Definition undo (self : val) : M bool :=
  st ← Operation.status self;
  if py_ne_str st "D" then mret false else
  (* self.bank_account._balance -= self.value *)
  acc ← bank_account self;
  old ← getattr acc "_balance";
  v ← value self;
  new ← py_sub old v;
  setattr acc "_balance" new;;
  (* self.__status = 'U' *)
  setattr self (mangle "DepositOperation" "__status") (VStr "U");;
  (* if self.bank_account._balance < 0: print(...) *)
  acc ← bank_account self;
  b ← getattr acc "_balance";
  neg ← py_lt0 b;
  (if neg : bool then t ← __str__ self; print (NegativeAfterUndo t) else mret tt);;
  mret true.

End DepositOperation.

(** ** class WithdrawalOperation(Operation) (Operations.py, lines 130-198) *)

Module WithdrawalOperation.

Definition bank_account (self : val) : M val :=
  getattr self (mangle "WithdrawalOperation" "__bank_account").

Definition value (self : val) : M val :=
  getattr self (mangle "WithdrawalOperation" "__value").

Definition __init__ (self bank_account value content : val) : M unit :=
  ok ← isinstance_BankAccount bank_account;
  if negb ok then raise ValueError else
  if negb (isinstance_Decimal value) then raise ValueError else
  (* super().__init__() : the comment is not passed on *)
  Operation.__init__ self (VStr "");;
  setattr self (mangle "WithdrawalOperation" "__bank_account") bank_account;;
  setattr self (mangle "WithdrawalOperation" "__value") value.

(** [f"{self.id}: WithdrawalOperation"] *)
Definition __str__ (self : val) : M string :=
  i ← Operation.id self;
  t ← py_format i;
  mret (t +:+ ": WithdrawalOperation").

Definition execute (self : val) : M bool :=
  st ← Operation.status self;
  if py_ne_str st "I" then mret false else
  (* if self.bank_account._balance - self.value < 0: *)
  acc ← bank_account self;
  b ← getattr acc "_balance";
  v ← value self;
  d ← py_sub b v;
  neg ← py_lt0 d;
  if neg : bool then
    (* self.__status = 'E' *)
    setattr self (mangle "WithdrawalOperation" "__status") (VStr "E");;
    mret false
  else
  (* self.bank_account._balance -= self.value *)
  acc ← bank_account self;
  old ← getattr acc "_balance";
  v ← value self;
  new ← py_sub old v;
  setattr acc "_balance" new;;
  (* self.bank_account._operation_history.append(self) *)
  acc ← bank_account self;
  h ← getattr acc "_operation_history";
  list_append h self;;
  (* self.__status = 'D' *)
  setattr self (mangle "WithdrawalOperation" "__status") (VStr "D");;
  mret true.

Definition undo (self : val) : M bool :=
  st ← Operation.status self;
  if py_ne_str st "D" then mret false else
  (* self.bank_account._balance += self.value *)
  acc ← bank_account self;
  old ← getattr acc "_balance";
  v ← value self;
  new ← py_add old v;
  setattr acc "_balance" new;;
  (* self.__status = 'U' *)
  setattr self (mangle "WithdrawalOperation" "__status") (VStr "U");;
  mret true.

End WithdrawalOperation.

(** ** str() and loops *)

(** [str(v)]: the [__str__] of the class of [v].  InterestAccrualOperation
    inherits the one of DepositOperation. *)
Definition py_str (v : val) : M string :=
  fun s =>
    match v with
    | VRef _ =>
        match class_of v s with
        | Some (CDepositOperation | CInterestAccrualOperation) =>
            DepositOperation.__str__ v s
        | Some CWithdrawalOperation => WithdrawalOperation.__str__ v s
        | _ => (Raise NotModelled, s)
        end
    | VDec _ => (Raise NotModelled, s)
    | _ => py_format v s
    end.

(** [for x in xs: body(x)] *)
Fixpoint for_each (xs : list val) (body : val -> M unit) : M unit :=
  match xs with
  | [] => mret tt
  | x :: xs' => body x;; for_each xs' body
  end.

(** ** class BankAccount (BankAccount.py) *)

Module BankAccount.

(** [def __init__(self, user)]: the body assigns [id_counter] and has no
    [global] statement. *)
Definition __init___scoping : scoping :=
  {| params := ["self"; "user"];
     assigned := ["id_counter"];
     declared_global := [] |}.

Definition __init__ (self user : val) : M unit :=
  let f := __init___scoping in
  let frame0 : gmap string val := <["self" := self]> (<["user" := user]> ∅) in
  ok ← isinstance_User user;
  if negb ok then raise ValueError else
  (* id_counter += 1 *)
  frame ← aug_add_name f frame0 "id_counter" (VInt 1);
  (* self.__id = id_counter *)
  i ← load_name f frame "id_counter";
  setattr self (mangle "BankAccount" "__id") i;;
  setattr self (mangle "BankAccount" "__user") user;;
  (* self._balance = Decimal('0') *)
  setattr self "_balance" (VDec 0);;
  (* self._operations_history = [] *)
  h ← new_list;
  setattr self "_operations_history" h.

(** The call [BankAccount(user)]. *)
Definition new (user : val) : M val :=
  construct CBankAccount (fun self => __init__ self user).

Definition id (self : val) : M val :=
  getattr self (mangle "BankAccount" "__id").

Definition user (self : val) : M val :=
  getattr self (mangle "BankAccount" "__user").

Definition balance (self : val) : M val :=
  getattr self "_balance".

Definition operations_history (self : val) : M val :=
  (* result = [] *)
  result ← new_list;
  (* for operation in self._operations_history: result.append(str(operation)) *)
  h ← getattr self "_operations_history";
  items ← iterate h;
  for_each items (fun operation =>
    t ← py_str operation;
    list_append result (VStr t));;
  mret result.

End BankAccount.

(** ** class InterestAccrualOperation(DepositOperation) (Operations.py, lines 201-219) *)

Module InterestAccrualOperation.

Definition __init__ (self bank_account rate : val) : M unit :=
  ok ← isinstance_BankAccount bank_account;
  if negb ok then raise ValueError else
  if negb (isinstance_Decimal rate) then raise ValueError else
  (* super().__init__(bank_account=bank_account, value=rate * bank_account.balance) *)
  b ← BankAccount.balance bank_account;
  v ← py_mul rate b;
  DepositOperation.__init__ self bank_account v (VStr "").

(** The call [InterestAccrualOperation(bank_account, rate)]. *)
Definition new (bank_account rate : val) : M val :=
  construct CInterestAccrualOperation (fun self => __init__ self bank_account rate).

End InterestAccrualOperation.

(** The calls [DepositOperation(bank_account, value, content)] and
    [WithdrawalOperation(bank_account, value, content)]. *)
Definition DepositOperation_new (bank_account value content : val) : M val :=
  construct CDepositOperation
    (fun self => DepositOperation.__init__ self bank_account value content).

Definition WithdrawalOperation_new (bank_account value content : val) : M val :=
  construct CWithdrawalOperation
    (fun self => WithdrawalOperation.__init__ self bank_account value content).

(** ** Calls from client code *)

(** A constructor call with its argument list. *)
Inductive ctor_call :=
| NewBankAccount (user : val)
| NewDepositOperation (bank_account value content : val)
| NewWithdrawalOperation (bank_account value content : val)
| NewInterestAccrualOperation (bank_account rate : val).

Definition run_ctor (c : ctor_call) : M val :=
  match c with
  | NewBankAccount user => BankAccount.new user
  | NewDepositOperation a v c => DepositOperation_new a v c
  | NewWithdrawalOperation a v c => WithdrawalOperation_new a v c
  | NewInterestAccrualOperation a r => InterestAccrualOperation.new a r
  end.

(** The argument list passes the [isinstance] checks of the constructor. *)
Definition well_typed_args (c : ctor_call) (s : state) : bool :=
  match c with
  | NewBankAccount user =>
      is_User user s
  | NewDepositOperation a v _ | NewWithdrawalOperation a v _
  | NewInterestAccrualOperation a v =>
      is_BankAccount a s && isinstance_Decimal v
  end.

(** [op.execute()] and [op.undo()]: the method of the class of [op]. *)
Definition call_execute (op : val) : M bool :=
  fun s =>
    match class_of op s with
    | Some (CDepositOperation | CInterestAccrualOperation) => DepositOperation.execute op s
    | Some CWithdrawalOperation => WithdrawalOperation.execute op s
    | Some CBankAccount | None => (Raise AttributeError, s)
    | Some (CUser | CForeign) => (Raise NotModelled, s)
    end.

Definition call_undo (op : val) : M bool :=
  fun s =>
    match class_of op s with
    | Some (CDepositOperation | CInterestAccrualOperation) => DepositOperation.undo op s
    | Some CWithdrawalOperation => WithdrawalOperation.undo op s
    | Some CBankAccount | None => (Raise AttributeError, s)
    | Some (CUser | CForeign) => (Raise NotModelled, s)
    end.

Inductive method_call :=
| Execute (op : val)
| Undo (op : val).

Definition run_call (c : method_call) : M bool :=
  match c with
  | Execute op => call_execute op
  | Undo op => call_undo op
  end.

(** A client that makes the calls one after the other and carries on after
    an exception ([try: ... except: pass]); the state after the last call. *)
Fixpoint run_calls (cs : list method_call) (s : state) : state :=
  match cs with
  | [] => s
  | c :: cs' => run_calls cs' (snd (run_call c s))
  end.

(** The same for constructor calls, with the outcome of every call. *)
Fixpoint run_ctors (cs : list ctor_call) (s : state) : list (res val) * state :=
  match cs with
  | [] => ([], s)
  | c :: cs' =>
      let '(r, s1) := run_ctor c s in
      let '(rs, s2) := run_ctors cs' s1 in
      (r :: rs, s2)
  end.

(** ** Observations and the shape of instances *)

(** The attribute [name] in the dictionary of the instance at [l]. *)
Definition attr_of (s : state) (l : loc) (name : string) : option val :=
  match heap s !! l with
  | Some (Instance _ attrs) => attrs !! name
  | _ => None
  end.

Definition list_at (s : state) (l : loc) : option (list val) :=
  match heap s !! l with
  | Some (PyList xs) => Some xs
  | _ => None
  end.

(** The log of the account at [a]: the items of the list that
    [_operations_history] refers to. *)
Definition history_of (s : state) (a : loc) : option (list val) :=
  match attr_of s a "_operations_history" with
  | Some (VRef h) => list_at s h
  | _ => None
  end.

(** The dictionary that the assignments of [BankAccount.__init__]
    (lines 28-33) give an instance, and an account with such a dictionary:
    balance [bal], log [ops] stored in the list at [h]. *)
Definition account_attrs (i : Z) (user : val) (bal : Q) (h : loc) : gmap string val :=
  <["_BankAccount__id" := VInt i]>
    (<["_BankAccount__user" := user]>
       (<["_balance" := VDec bal]>
          (<["_operations_history" := VRef h]> ∅))).

Definition account_at (s : state) (a : loc) (bal : Q) (h : loc) (ops : list val) : Prop :=
  (∃ i user, heap s !! a = Some (Instance CBankAccount (account_attrs i user bal h)))
  ∧ heap s !! h = Some (PyList ops).

(** An instance of DepositOperation or of InterestAccrualOperation with the
    attributes that [Operation.__init__] (lines 20-23) and
    [DepositOperation.__init__] (lines 84-85) assign: status [st], account
    [a], amount [v]. *)
Definition deposit_at (s : state) (o : loc) (st : string) (a : loc) (v : Q) : Prop :=
  ∃ c attrs,
    heap s !! o = Some (Instance c attrs)
    ∧ (c = CDepositOperation ∨ c = CInterestAccrualOperation)
    ∧ attrs !! "_Operation__status" = Some (VStr st)
    ∧ attrs !! "_DepositOperation__bank_account" = Some (VRef a)
    ∧ attrs !! "_DepositOperation__value" = Some (VDec v).

(** The same for WithdrawalOperation (lines 154-155). *)
Definition withdrawal_at (s : state) (o : loc) (st : string) (a : loc) (v : Q) : Prop :=
  ∃ attrs,
    heap s !! o = Some (Instance CWithdrawalOperation attrs)
    ∧ attrs !! "_Operation__status" = Some (VStr st)
    ∧ attrs !! "_WithdrawalOperation__bank_account" = Some (VRef a)
    ∧ attrs !! "_WithdrawalOperation__value" = Some (VDec v).

(** Every BankAccount instance of the heap holds a [Decimal] balance. *)
Definition account_ok (c : cell) : bool :=
  match c with
  | Instance CBankAccount attrs =>
      match attrs !! "_balance" with
      | Some (VDec _) => true
      | _ => false
      end
  | _ => true
  end.

Definition accounts_ok (s : state) : Prop :=
  ∀ l c, heap s !! l = Some c → account_ok c = true.

(** The string form ["<id>: <OperationKind>"] of an operation in a log. *)
Definition operation_kind (c : cls) : option string :=
  match c with
  | CDepositOperation | CInterestAccrualOperation => Some "DepositOperation"
  | CWithdrawalOperation => Some "WithdrawalOperation"
  | _ => None
  end.

Definition operation_string (s : state) (v : val) : option string :=
  match v with
  | VRef l =>
      match heap s !! l with
      | Some (Instance c attrs) =>
          match operation_kind c, attrs !! "_Operation__id" with
          | Some k, Some (VInt i) => Some (pretty i +:+ ": " +:+ k)
          | _, _ => None
          end
      | _ => None
      end
  | _ => None
  end.

(** [m] never changes the observation [f], whatever its outcome. *)
Definition keeps {A B} (f : state → B) (m : M A) : Prop :=
  ∀ s, f (snd (m s)) = f s.

(** ** A sample heap

    A user at address 1, an account at 2 with its log in the list at 3, and
    operations on that account at 4 to 7, every instance with the attributes
    that the assignments of its [__init__] would give it. *)
Definition operation_attrs (i : Z) (content : val) : gmap string val :=
  <["_Operation__id" := VInt i]>
    (<["_Operation__status" := VStr "I"]>
       (<["_Operation__content" := content]> ∅)).

Definition deposit_attrs (i : Z) (content : val) (a : loc) (v : Q) : gmap string val :=
  <["_DepositOperation__bank_account" := VRef a]>
    (<["_DepositOperation__value" := VDec v]> (operation_attrs i content)).

Definition withdrawal_attrs (i : Z) (a : loc) (v : Q) : gmap string val :=
  <["_WithdrawalOperation__bank_account" := VRef a]>
    (<["_WithdrawalOperation__value" := VDec v]> (operation_attrs i (VStr ""))).

Definition demo_heap (bal : Q) (log : list val) : gmap loc cell :=
  <[1%positive := Instance CUser ∅]>
    (<[2%positive := Instance CBankAccount (account_attrs 1 (VRef 1) bal 3)]>
       (<[3%positive := PyList log]>
          (<[4%positive := Instance CDepositOperation (deposit_attrs 1 (VStr "") 2 100)]>
             (<[5%positive := Instance CWithdrawalOperation (withdrawal_attrs 2 2 150)]>
                (<[6%positive := Instance CWithdrawalOperation (withdrawal_attrs 3 2 40)]>
                   (<[7%positive :=
                        Instance CInterestAccrualOperation (deposit_attrs 4 (VStr "") 2 5)]>
                      ∅)))))).

Definition demo (bal : Q) (log : list val) : state :=
  {| heap := demo_heap bal log; globals := initial_globals; stdout := [] |}.

(** The sample heap with one more attribute on the account: a client has
    bound [_operation_history], the name the operations ask for, to the list
    of the log. *)
Definition patched_heap (bal : Q) (log : list val) : gmap loc cell :=
  <[2%positive :=
      Instance CBankAccount
        (<["_operation_history" := VRef 3]> (account_attrs 1 (VRef 1) bal 3))]>
    (demo_heap bal log).

Definition patched (bal : Q) (log : list val) : state :=
  {| heap := patched_heap bal log; globals := initial_globals; stdout := [] |}.

(** The sample heap in which the deposit at 4 and the withdrawal at 6 carry
    the status [st]. *)
Definition demo_status (st : string) (bal : Q) (log : list val) : state :=
  with_attr 6 "_Operation__status" (VStr st)
    (with_attr 4 "_Operation__status" (VStr st) (demo bal log)).

(** ** Heaps of instances in their initial shape, and the ledger

    [shaped s]: every account of the heap has the attributes of
    [BankAccount.__init__] and its log in a list, and every operation has the
    attributes of its [__init__], status ['I'] and such an account. *)
Definition cell_shaped (s : state) (l : loc) (c : cell) : Prop :=
  match c with
  | Instance CBankAccount _ => ∃ bal h ops, account_at s l bal h ops
  | Instance (CDepositOperation | CInterestAccrualOperation) _ =>
      ∃ a v bal h ops, deposit_at s l "I" a v ∧ account_at s a bal h ops
  | Instance CWithdrawalOperation _ =>
      ∃ a v bal h ops, withdrawal_at s l "I" a v ∧ account_at s a bal h ops
  | _ => True
  end.

Definition shaped (s : state) : Prop := map_Forall (cell_shaped s) (heap s).

(** The receiver of a call is not an instance of [User] or of a class
    outside the source. *)
Definition receiver (c : method_call) : val :=
  match c with Execute op | Undo op => op end.

Definition modelled_call (s : state) (c : method_call) : bool :=
  match class_of (receiver c) s with
  | Some (CUser | CForeign) => false
  | _ => true
  end.

(** What one call does to the balance [bal] of the account at [a]: an
    [execute] of a deposit on [a] adds its amount, an [execute] of a
    withdrawal on [a] subtracts its amount unless that would leave less than
    zero, and every other call leaves the balance alone. *)
Definition balance_after (s : state) (c : method_call) (a : loc) (bal : Q) : Q :=
  match c with
  | Execute (VRef o) =>
      match class_of (VRef o) s with
      | Some (CDepositOperation | CInterestAccrualOperation) =>
          match attr_of s o "_DepositOperation__bank_account",
                attr_of s o "_DepositOperation__value" with
          | Some (VRef a'), Some (VDec v) =>
              if bool_decide (a' = a) then (bal + v)%Q else bal
          | _, _ => bal
          end
      | Some CWithdrawalOperation =>
          match attr_of s o "_WithdrawalOperation__bank_account",
                attr_of s o "_WithdrawalOperation__value" with
          | Some (VRef a'), Some (VDec v) =>
              if bool_decide (a' = a)
              then (if Qlt_bool (bal - v) 0 then bal else (bal - v)%Q)
              else bal
          | _, _ => bal
          end
      | _ => bal
      end
  | _ => bal
  end.

Definition replay (s : state) (cs : list method_call) (a : loc) (bal : Q) : Q :=
  fold_left (λ b c, balance_after s c a b) cs bal.

(** The number that a call computes for the balance [bal] of the account at
    [a], when it computes one: [bal + v] for the [execute] of a deposit of
    [v] on [a], [bal - v] for the [execute] of a withdrawal of [v] on [a]
    (computed for the funds check, and again for the assignment). *)
Definition computed_balance (s : state) (c : method_call) (a : loc) (bal : Q) : option Q :=
  match c with
  | Execute (VRef o) =>
      match class_of (VRef o) s with
      | Some (CDepositOperation | CInterestAccrualOperation) =>
          match attr_of s o "_DepositOperation__bank_account",
                attr_of s o "_DepositOperation__value" with
          | Some (VRef a'), Some (VDec v) =>
              if bool_decide (a' = a) then Some (bal + v)%Q else None
          | _, _ => None
          end
      | Some CWithdrawalOperation =>
          match attr_of s o "_WithdrawalOperation__bank_account",
                attr_of s o "_WithdrawalOperation__value" with
          | Some (VRef a'), Some (VDec v) =>
              if bool_decide (a' = a) then Some (bal - v)%Q else None
          | _, _ => None
          end
      | _ => None
      end
  | _ => None
  end.

(** Every number computed for the balance of [a] along the calls [cs] fits
    the context. *)
Fixpoint replay_in_context (s : state) (cs : list method_call) (a : loc) (bal : Q)
  : Prop :=
  match cs with
  | [] => True
  | c :: cs' =>
      (∀ q, computed_balance s c a bal = Some q → in_context q)
      ∧ replay_in_context s cs' a (balance_after s c a bal)
  end.

(** A heap with one [BankAccount] instance that has no attribute at all, as
    [BankAccount.__new__(BankAccount)] leaves it. *)
Definition bare_account : state :=
  set_heap (<[1%positive := Instance CBankAccount ∅]> ∅) initial_state.

Example mangle_status_Operation :
  mangle "Operation" "__status" = "_Operation__status".
Proof. reflexivity. Qed.

Example mangle_init : mangle "Operation" "__init__" = "__init__".
Proof. reflexivity. Qed.



(** * Properties *)

(** ** The primitives *)

Lemma state_eta s : {| heap := heap s; globals := globals s; stdout := stdout s |} = s.
Proof. by destruct s. Qed.

Lemma set_heap_id s : set_heap (heap s) s = s.
Proof. apply state_eta. Qed.

Lemma bind_eq {A B} (m : M A) (k : A → M B) s :
  (m ≫= k) s = match m s with
               | (Ret a, s') => k a s'
               | (Raise e, s') => (Raise e, s')
               end.
Proof. reflexivity. Qed.

Lemma bind_ret {A B} (m : M A) (k : A → M B) s a s' :
  m s = (Ret a, s') → (m ≫= k) s = k a s'.
Proof. intros H. by rewrite bind_eq, H. Qed.

Lemma bind_raise {A B} (m : M A) (k : A → M B) s e s' :
  m s = (Raise e, s') → (m ≫= k) s = (Raise e, s').
Proof. intros H. by rewrite bind_eq, H. Qed.

Lemma py_add_Decimal x y s : py_add (VDec x) (VDec y) s = (Ret (VDec (x + y)), s).
Proof. reflexivity. Qed.

Lemma py_sub_Decimal x y s : py_sub (VDec x) (VDec y) s = (Ret (VDec (x - y)), s).
Proof. reflexivity. Qed.

Lemma py_mul_Decimal x y s : py_mul (VDec x) (VDec y) s = (Ret (VDec (x * y)), s).
Proof. reflexivity. Qed.

Lemma py_lt0_Decimal x s : py_lt0 (VDec x) s = (Ret (Qlt_bool x 0), s).
Proof. reflexivity. Qed.

Lemma getattr_attr_of l n s :
  getattr (VRef l) n s =
  (match attr_of s l n with Some x => Ret x | None => Raise AttributeError end, s).
Proof.
  unfold getattr, attr_of.
  destruct (heap s !! l) as [[c attrs|xs]|]; try reflexivity.
  by destruct (attrs !! n).
Qed.

Lemma getattr_Some l n s x :
  attr_of s l n = Some x → getattr (VRef l) n s = (Ret x, s).
Proof. intros H. by rewrite getattr_attr_of, H. Qed.

Lemma getattr_None l n s :
  attr_of s l n = None → getattr (VRef l) n s = (Raise AttributeError, s).
Proof. intros H. by rewrite getattr_attr_of, H. Qed.

Lemma setattr_instance l n x s :
  is_Some (class_of (VRef l) s) →
  setattr (VRef l) n x s = (Ret tt, with_attr l n x s).
Proof.
  unfold setattr, class_of. intros [c Hc].
  by destruct (heap s !! l) as [[c' attrs|xs]|].
Qed.

Lemma attr_of_class s l n x : attr_of s l n = Some x → is_Some (class_of (VRef l) s).
Proof.
  unfold attr_of, class_of.
  destruct (heap s !! l) as [[c attrs|xs]|]; [eauto | done | done].
Qed.

Lemma attr_of_with_attr l n x s l' n' :
  attr_of (with_attr l n x s) l' n' =
  if decide (l = l' ∧ n = n' ∧ is_Some (class_of (VRef l) s))
  then Some x else attr_of s l' n'.
Proof.
  unfold with_attr, attr_of, class_of.
  destruct (heap s !! l) as [[c attrs|xs]|] eqn:Hl.
  - simpl. destruct (decide (l = l')) as [->|Hne].
    + rewrite lookup_insert_eq. destruct (decide (n = n')) as [->|Hn].
      * rewrite lookup_insert_eq. rewrite decide_True; eauto.
      * rewrite lookup_insert_ne by done. rewrite decide_False by (intros (? & ? & ?); congruence).
        by rewrite Hl.
    + rewrite lookup_insert_ne by done. rewrite decide_False by (intros (? & ? & ?); congruence). done.
  - rewrite decide_False; [done|]. intros (_ & _ & [? ?]); done.
  - rewrite decide_False; [done|]. intros (_ & _ & [? ?]); done.
Qed.

Lemma list_at_with_attr l n x s l' : list_at (with_attr l n x s) l' = list_at s l'.
Proof.
  unfold with_attr, list_at.
  destruct (heap s !! l) as [[c attrs|xs]|] eqn:Hl; try done.
  simpl. destruct (decide (l = l')) as [->|Hne].
  - by rewrite lookup_insert_eq, Hl.
  - by rewrite lookup_insert_ne.
Qed.

Lemma class_of_with_attr l n x s v : class_of v (with_attr l n x s) = class_of v s.
Proof.
  destruct v as [| | | |l']; try done.
  unfold with_attr, class_of.
  destruct (heap s !! l) as [[c attrs|xs]|] eqn:Hl; try done.
  simpl. destruct (decide (l = l')) as [->|Hne].
  - by rewrite lookup_insert_eq, Hl.
  - by rewrite lookup_insert_ne.
Qed.

Lemma globals_with_attr l n x s : globals (with_attr l n x s) = globals s.
Proof. unfold with_attr. by destruct (heap s !! l) as [[c attrs|xs]|]. Qed.

Lemma stdout_with_attr l n x s : stdout (with_attr l n x s) = stdout s.
Proof. unfold with_attr. by destruct (heap s !! l) as [[c attrs|xs]|]. Qed.

Lemma history_of_with_attr l n x s a :
  n ≠ "_operations_history" →
  history_of (with_attr l n x s) a = history_of s a.
Proof.
  intros Hn. unfold history_of. rewrite attr_of_with_attr.
  rewrite decide_False by (intros (? & ? & ?); congruence).
  destruct (attr_of s a "_operations_history") as [[]|]; try done.
  apply list_at_with_attr.
Qed.

(** ** Instances with the shape the constructors give them *)

Lemma account_attr_balance s a bal h ops :
  account_at s a bal h ops → attr_of s a "_balance" = Some (VDec bal).
Proof. intros [(i & u & Ha) _]. unfold attr_of. by rewrite Ha. Qed.

Lemma account_attr_history s a bal h ops :
  account_at s a bal h ops → attr_of s a "_operations_history" = Some (VRef h).
Proof. intros [(i & u & Ha) _]. unfold attr_of. by rewrite Ha. Qed.

(** The attribute that the operations ask for does not exist. *)
Lemma account_attr_operation_history s a bal h ops :
  account_at s a bal h ops → attr_of s a "_operation_history" = None.
Proof. intros [(i & u & Ha) _]. unfold attr_of. by rewrite Ha. Qed.

Lemma account_history_of s a bal h ops :
  account_at s a bal h ops → history_of s a = Some ops.
Proof.
  intros Hacc. unfold history_of. rewrite (account_attr_history _ _ _ _ _ Hacc).
  destruct Hacc as [_ Hh]. unfold list_at. by rewrite Hh.
Qed.

Lemma account_attrs_balance i u bal h b' :
  <["_balance" := VDec b']> (account_attrs i u bal h) = account_attrs i u b' h.
Proof.
  unfold account_attrs.
  rewrite (insert_insert_ne _ "_balance" "_BankAccount__id") by done.
  rewrite (insert_insert_ne _ "_balance" "_BankAccount__user") by done.
  by rewrite insert_insert_eq.
Qed.

Lemma account_with_balance s a bal h ops b' :
  account_at s a bal h ops →
  account_at (with_attr a "_balance" (VDec b') s) a b' h ops.
Proof.
  intros [(i & u & Ha) Hh]. unfold account_at, with_attr. rewrite Ha. simpl.
  split.
  - exists i, u. by rewrite lookup_insert_eq, account_attrs_balance.
  - rewrite lookup_insert_ne; [done|]. intros ->. congruence.
Qed.

Lemma deposit_with_attr s o st a v l n x :
  n ≠ "_Operation__status" →
  n ≠ "_DepositOperation__bank_account" →
  n ≠ "_DepositOperation__value" →
  deposit_at s o st a v → deposit_at (with_attr l n x s) o st a v.
Proof.
  intros H1 H2 H3 (c & attrs & Ho & Hc & Hst & Hacc & Hv).
  unfold deposit_at, with_attr.
  destruct (heap s !! l) as [[c' attrs'|xs]|] eqn:Hl; [|by eauto 10..].
  simpl. destruct (decide (l = o)) as [->|Hne].
  - rewrite lookup_insert_eq. assert (c' = c ∧ attrs' = attrs) as [-> ->] by (split; congruence).
    exists c, (<[n := x]> attrs). rewrite !lookup_insert_ne by done. eauto 10.
  - rewrite lookup_insert_ne by done. eauto 10.
Qed.

Lemma withdrawal_with_attr s o st a v l n x :
  n ≠ "_Operation__status" →
  n ≠ "_WithdrawalOperation__bank_account" →
  n ≠ "_WithdrawalOperation__value" →
  withdrawal_at s o st a v → withdrawal_at (with_attr l n x s) o st a v.
Proof.
  intros H1 H2 H3 (attrs & Ho & Hst & Hacc & Hv).
  unfold withdrawal_at, with_attr.
  destruct (heap s !! l) as [[c' attrs'|xs]|] eqn:Hl; [|by eauto 10..].
  simpl. destruct (decide (l = o)) as [->|Hne].
  - rewrite lookup_insert_eq. assert (c' = CWithdrawalOperation ∧ attrs' = attrs) as [-> ->]
      by (split; congruence).
    exists (<[n := x]> attrs). rewrite !lookup_insert_ne by done. eauto 10.
  - rewrite lookup_insert_ne by done. eauto 10.
Qed.

Lemma deposit_at_attrs s o st a v :
  deposit_at s o st a v →
  attr_of s o "_Operation__status" = Some (VStr st)
  ∧ attr_of s o "_DepositOperation__bank_account" = Some (VRef a)
  ∧ attr_of s o "_DepositOperation__value" = Some (VDec v).
Proof. intros (c & attrs & Ho & _ & ? & ? & ?). unfold attr_of. by rewrite Ho. Qed.

Lemma withdrawal_at_attrs s o st a v :
  withdrawal_at s o st a v →
  attr_of s o "_Operation__status" = Some (VStr st)
  ∧ attr_of s o "_WithdrawalOperation__bank_account" = Some (VRef a)
  ∧ attr_of s o "_WithdrawalOperation__value" = Some (VDec v).
Proof. intros (attrs & Ho & ? & ? & ?). unfold attr_of. by rewrite Ho. Qed.

(** ** One call of execute and undo on such instances *)

(** Runs the next statement of a method body whose outcome is given by
    the lemma [H]. *)
Ltac names :=
  repeat match goal with
    | |- context [mangle ?c ?n] =>
        let r := eval vm_compute in (mangle c n) in change (mangle c n) with r
    end.
Ltac next_ret H := rewrite (bind_ret _ _ _ _ _ H); cbn beta iota.

Lemma deposit_execute_state s o a v bal h ops :
  account_at s a bal h ops →
  deposit_at s o "I" a v →
  DepositOperation.execute (VRef o) s =
  (Raise AttributeError, with_attr a "_balance" (VDec (bal + v)) s).
Proof.
  intros Hacc Hop.
  destruct (deposit_at_attrs _ _ _ _ _ Hop) as (Hst & Hba & Hv).
  pose proof (account_attr_balance _ _ _ _ _ Hacc) as Hbal.
  unfold DepositOperation.execute, Operation.status,
    DepositOperation.bank_account, DepositOperation.value.
  names.
  next_ret (getattr_Some _ _ _ _ Hst).
  change (py_ne_str (VStr "I") "I") with false. cbn beta iota.
  next_ret (getattr_Some _ _ _ _ Hba).
  next_ret (getattr_Some _ _ _ _ Hbal).
  next_ret (getattr_Some _ _ _ _ Hv).
  next_ret (py_add_Decimal bal v s).
  next_ret (setattr_instance _ "_balance" (VDec (bal + v)) _ (attr_of_class _ _ _ _ Hbal)).
  set (s1 := with_attr a "_balance" (VDec (bal + v)) s).
  assert (deposit_at s1 o "I" a v) as Hop1 by (by apply deposit_with_attr).
  destruct (deposit_at_attrs _ _ _ _ _ Hop1) as (_ & Hba1 & _).
  next_ret (getattr_Some _ _ _ _ Hba1).
  apply bind_raise, getattr_None.
  apply (account_attr_operation_history _ _ _ _ _ (account_with_balance _ _ _ _ _ _ Hacc)).
Qed.

Lemma Qlt_bool_iff x y : Qlt_bool x y = true ↔ (x < y)%Q.
Proof.
  unfold Qlt_bool. rewrite negb_true_iff, <- not_true_iff_false, Qle_bool_iff.
  split; [apply Qnot_le_lt | apply Qlt_not_le].
Qed.

Lemma Qlt_bool_minus bal v : Qlt_bool (bal - v) 0 = true ↔ (bal < v)%Q.
Proof.
  rewrite Qlt_bool_iff. split; intros H; lra.
Qed.

Lemma Qlt_bool_minus_false bal v : Qlt_bool (bal - v) 0 = false ↔ (v <= bal)%Q.
Proof.
  rewrite <- not_true_iff_false, Qlt_bool_minus.
  split; [apply Qnot_lt_le | apply Qle_not_lt].
Qed.

Lemma withdrawal_execute_enough s o a v bal h ops :
  account_at s a bal h ops →
  withdrawal_at s o "I" a v →
  (v <= bal)%Q →
  WithdrawalOperation.execute (VRef o) s =
  (Raise AttributeError, with_attr a "_balance" (VDec (bal - v)) s).
Proof.
  intros Hacc Hop Hle.
  destruct (withdrawal_at_attrs _ _ _ _ _ Hop) as (Hst & Hba & Hv).
  pose proof (account_attr_balance _ _ _ _ _ Hacc) as Hbal.
  unfold WithdrawalOperation.execute, Operation.status,
    WithdrawalOperation.bank_account, WithdrawalOperation.value.
  names.
  next_ret (getattr_Some _ _ _ _ Hst).
  change (py_ne_str (VStr "I") "I") with false. cbn beta iota.
  next_ret (getattr_Some _ _ _ _ Hba).
  next_ret (getattr_Some _ _ _ _ Hbal).
  next_ret (getattr_Some _ _ _ _ Hv).
  next_ret (py_sub_Decimal bal v s).
  next_ret (py_lt0_Decimal (bal - v) s).
  rewrite (proj2 (Qlt_bool_minus_false bal v) Hle). cbn beta iota.
  next_ret (getattr_Some _ _ _ _ Hba).
  next_ret (getattr_Some _ _ _ _ Hbal).
  next_ret (getattr_Some _ _ _ _ Hv).
  next_ret (py_sub_Decimal bal v s).
  next_ret (setattr_instance _ "_balance" (VDec (bal - v)) _ (attr_of_class _ _ _ _ Hbal)).
  set (s1 := with_attr a "_balance" (VDec (bal - v)) s).
  assert (withdrawal_at s1 o "I" a v) as Hop1 by (by apply withdrawal_with_attr).
  destruct (withdrawal_at_attrs _ _ _ _ _ Hop1) as (_ & Hba1 & _).
  next_ret (getattr_Some _ _ _ _ Hba1).
  apply bind_raise, getattr_None.
  apply (account_attr_operation_history _ _ _ _ _ (account_with_balance _ _ _ _ _ _ Hacc)).
Qed.

Lemma withdrawal_execute_short s o a v bal h ops :
  account_at s a bal h ops →
  withdrawal_at s o "I" a v →
  (bal < v)%Q →
  WithdrawalOperation.execute (VRef o) s =
  (Ret false, with_attr o "_WithdrawalOperation__status" (VStr "E") s).
Proof.
  intros Hacc Hop Hlt.
  destruct (withdrawal_at_attrs _ _ _ _ _ Hop) as (Hst & Hba & Hv).
  pose proof (account_attr_balance _ _ _ _ _ Hacc) as Hbal.
  unfold WithdrawalOperation.execute, Operation.status,
    WithdrawalOperation.bank_account, WithdrawalOperation.value.
  names.
  next_ret (getattr_Some _ _ _ _ Hst).
  change (py_ne_str (VStr "I") "I") with false. cbn beta iota.
  next_ret (getattr_Some _ _ _ _ Hba).
  next_ret (getattr_Some _ _ _ _ Hbal).
  next_ret (getattr_Some _ _ _ _ Hv).
  next_ret (py_sub_Decimal bal v s).
  next_ret (py_lt0_Decimal (bal - v) s).
  rewrite (proj2 (Qlt_bool_minus bal v) Hlt). cbn beta iota.
  next_ret (setattr_instance _ "_WithdrawalOperation__status" (VStr "E") _
              (attr_of_class _ _ _ _ Hst)).
  reflexivity.
Qed.

(** The guards: a status other than ['I'] stops [execute], a status other
    than ['D'] stops [undo]; nothing is changed and [False] is returned. *)
Lemma deposit_execute_guard s o st :
  attr_of s o "_Operation__status" = Some st →
  py_ne_str st "I" = true →
  DepositOperation.execute (VRef o) s = (Ret false, s).
Proof.
  intros Hst Hne. unfold DepositOperation.execute, Operation.status. names.
  next_ret (getattr_Some _ _ _ _ Hst). by rewrite Hne.
Qed.

Lemma deposit_undo_guard s o st :
  attr_of s o "_Operation__status" = Some st →
  py_ne_str st "D" = true →
  DepositOperation.undo (VRef o) s = (Ret false, s).
Proof.
  intros Hst Hne. unfold DepositOperation.undo, Operation.status. names.
  next_ret (getattr_Some _ _ _ _ Hst). by rewrite Hne.
Qed.

Lemma withdrawal_execute_guard s o st :
  attr_of s o "_Operation__status" = Some st →
  py_ne_str st "I" = true →
  WithdrawalOperation.execute (VRef o) s = (Ret false, s).
Proof.
  intros Hst Hne. unfold WithdrawalOperation.execute, Operation.status. names.
  next_ret (getattr_Some _ _ _ _ Hst). by rewrite Hne.
Qed.

Lemma withdrawal_undo_guard s o st :
  attr_of s o "_Operation__status" = Some st →
  py_ne_str st "D" = true →
  WithdrawalOperation.undo (VRef o) s = (Ret false, s).
Proof.
  intros Hst Hne. unfold WithdrawalOperation.undo, Operation.status. names.
  next_ret (getattr_Some _ _ _ _ Hst). by rewrite Hne.
Qed.

(** ** The constructors *)

Lemma fresh_loc_None s : heap s !! fresh (dom (heap s)) = None.
Proof. apply not_elem_of_dom, is_fresh. Qed.

(** An [__init__] that raises before it has changed anything leaves no
    trace: the caller's state is the one before the call. *)
Lemma construct_raises_at c init e s :
  (let l := fresh (dom (heap s)) in
   let s0 := set_heap (<[l := Instance c ∅]> (heap s)) s in
   init (VRef l) s0 = (Raise e, s0)) →
  construct c init s = (Raise e, s).
Proof.
  intros Hinit. unfold construct. rewrite Hinit. f_equal.
  unfold set_heap. simpl. rewrite delete_insert_eq, delete_id by apply fresh_loc_None.
  apply state_eta.
Qed.

(** [operation_id_counter += 1] in [Operation.__init__]: the name is local
    and unbound. *)
Lemma Operation_init_raises self content s :
  Operation.__init__ self content s = (Raise UnboundLocalError, s).
Proof. reflexivity. Qed.

Lemma BankAccount_init_well_typed self user s :
  is_User user s = true →
  BankAccount.__init__ self user s = (Raise UnboundLocalError, s).
Proof.
  intros Hu. unfold BankAccount.__init__.
  rewrite (bind_ret _ _ s (is_User user s) s) by done.
  rewrite Hu. reflexivity.
Qed.

Lemma BankAccount_init_ill_typed self user s :
  is_User user s = false →
  BankAccount.__init__ self user s = (Raise ValueError, s).
Proof.
  intros Hu. unfold BankAccount.__init__.
  rewrite (bind_ret _ _ s (is_User user s) s) by done.
  rewrite Hu. reflexivity.
Qed.

Lemma DepositOperation_init_well_typed self a v content s :
  is_BankAccount a s = true → isinstance_Decimal v = true →
  DepositOperation.__init__ self a v content s = (Raise UnboundLocalError, s).
Proof.
  intros Ha Hv. unfold DepositOperation.__init__.
  rewrite (bind_ret _ _ s (is_BankAccount a s) s) by done.
  rewrite Ha, Hv. reflexivity.
Qed.

Lemma DepositOperation_init_ill_typed self a v content s :
  is_BankAccount a s && isinstance_Decimal v = false →
  DepositOperation.__init__ self a v content s = (Raise ValueError, s).
Proof.
  intros H. unfold DepositOperation.__init__.
  rewrite (bind_ret _ _ s (is_BankAccount a s) s) by done.
  destruct (is_BankAccount a s); [|done].
  simpl in H. by rewrite H.
Qed.

Lemma WithdrawalOperation_init_well_typed self a v content s :
  is_BankAccount a s = true → isinstance_Decimal v = true →
  WithdrawalOperation.__init__ self a v content s = (Raise UnboundLocalError, s).
Proof.
  intros Ha Hv. unfold WithdrawalOperation.__init__.
  rewrite (bind_ret _ _ s (is_BankAccount a s) s) by done.
  rewrite Ha, Hv. reflexivity.
Qed.

Lemma WithdrawalOperation_init_ill_typed self a v content s :
  is_BankAccount a s && isinstance_Decimal v = false →
  WithdrawalOperation.__init__ self a v content s = (Raise ValueError, s).
Proof.
  intros H. unfold WithdrawalOperation.__init__.
  rewrite (bind_ret _ _ s (is_BankAccount a s) s) by done.
  destruct (is_BankAccount a s); [|done].
  simpl in H. by rewrite H.
Qed.

Lemma InterestAccrualOperation_init_ill_typed self a r s :
  is_BankAccount a s && isinstance_Decimal r = false →
  InterestAccrualOperation.__init__ self a r s = (Raise ValueError, s).
Proof.
  intros H. unfold InterestAccrualOperation.__init__.
  rewrite (bind_ret _ _ s (is_BankAccount a s) s) by done.
  destruct (is_BankAccount a s); [|done].
  simpl in H. by rewrite H.
Qed.

(** With a [Decimal] rate and an account whose balance is the [Decimal]
    [bal], the product [rate * bal] is computed and handed to
    [DepositOperation.__init__]. *)
Lemma InterestAccrualOperation_init_amount self a rate bal s :
  is_BankAccount (VRef a) s = true →
  attr_of s a "_balance" = Some (VDec bal) →
  InterestAccrualOperation.__init__ self (VRef a) (VDec rate) s =
  DepositOperation.__init__ self (VRef a) (VDec (rate * bal)) (VStr "") s.
Proof.
  intros Ha Hbal. unfold InterestAccrualOperation.__init__, BankAccount.balance.
  rewrite (bind_ret _ _ s (is_BankAccount (VRef a) s) s) by done.
  rewrite Ha. cbn [negb isinstance_Decimal].
  next_ret (getattr_Some _ _ _ _ Hbal).
  next_ret (py_mul_Decimal rate bal s).
  reflexivity.
Qed.

(** ** What a computation leaves alone *)

Section Keeps.
Context {B : Type} (f : state → B).

Lemma keeps_read {A} (m : M A) : (∀ s, snd (m s) = s) → keeps f m.
Proof. intros H s. by rewrite H. Qed.

Lemma keeps_mret {A} (a : A) : keeps f (mret a).
Proof. done. Qed.

Lemma keeps_raise {A} e : keeps f (@raise A e).
Proof. done. Qed.

Lemma keeps_bind {A C} (m : M A) (k : A → M C) :
  keeps f m → (∀ a, keeps f (k a)) → keeps f (m ≫= k).
Proof.
  intros Hm Hk s. rewrite bind_eq. specialize (Hm s).
  destruct (m s) as [[a|e] s1]; simpl in *.
  - by rewrite Hk.
  - done.
Qed.

Lemma keeps_getattr v n : keeps f (getattr v n).
Proof.
  apply keeps_read. intros s. destruct v as [| | | |l]; try done.
  by rewrite getattr_attr_of.
Qed.

Lemma keeps_py_add a b : keeps f (py_add a b).
Proof. apply keeps_read. intros s. by destruct a, b. Qed.

Lemma keeps_py_sub a b : keeps f (py_sub a b).
Proof. apply keeps_read. intros s. by destruct a, b. Qed.

Lemma keeps_py_lt0 a : keeps f (py_lt0 a).
Proof. apply keeps_read. intros s. by destruct a. Qed.

Lemma keeps_py_format a : keeps f (py_format a).
Proof. apply keeps_read. intros s. by destruct a. Qed.

End Keeps.

Create HintDb keeps.
#[local] Hint Resolve keeps_mret keeps_raise keeps_getattr keeps_py_add keeps_py_sub
  keeps_py_lt0 keeps_py_format : keeps.

(** Walks through a method body statement by statement. *)
Ltac keeps_body :=
  repeat first
    [ apply keeps_bind; [| intros ?]
    | match goal with |- keeps _ (if ?b then _ else _) => destruct b end
    | solve [auto with keeps] ].

Lemma keeps_attr_setattr l n v n' x :
  n' ≠ n → keeps (λ s, attr_of s l n) (setattr v n' x).
Proof.
  intros Hn s. destruct v as [| | | |l']; try done.
  unfold setattr. destruct (heap s !! l') as [[c attrs|xs]|] eqn:Hl; try done.
  simpl. rewrite attr_of_with_attr. by rewrite decide_False by (intros (? & ? & ?); congruence).
Qed.

Lemma keeps_attr_list_append l n v x : keeps (λ s, attr_of s l n) (list_append v x).
Proof.
  intros s. destruct v as [| | | |l']; try done.
  unfold list_append. destruct (heap s !! l') as [[c attrs|xs]|] eqn:Hl; try done.
  unfold attr_of. simpl. destruct (decide (l' = l)) as [->|Hne].
  - by rewrite lookup_insert_eq, Hl.
  - by rewrite lookup_insert_ne.
Qed.

Lemma keeps_attr_print l n o : keeps (λ s, attr_of s l n) (print o).
Proof. done. Qed.

Lemma keeps_history_setattr a v n x :
  n ≠ "_operations_history" → keeps (λ s, history_of s a) (setattr v n x).
Proof.
  intros Hn s. destruct v as [| | | |l']; try done.
  unfold setattr. destruct (heap s !! l') as [[c attrs|xs]|] eqn:Hl; try done.
  simpl. by apply history_of_with_attr.
Qed.

Lemma keeps_history_print a o : keeps (λ s, history_of s a) (print o).
Proof. done. Qed.

(** Neither [execute] nor [undo] ever writes [_Operation__status], the
    attribute that the [status] property reads: they write
    [_DepositOperation__status] and [_WithdrawalOperation__status]. *)
Lemma keeps_status_deposit_execute l self :
  keeps (λ s, attr_of s l "_Operation__status") (DepositOperation.execute self).
Proof.
  unfold DepositOperation.execute, DepositOperation.bank_account,
    DepositOperation.value, Operation.status. names.
  keeps_body; first [by apply keeps_attr_setattr | apply keeps_attr_list_append].
Qed.

Lemma keeps_status_deposit_undo l self :
  keeps (λ s, attr_of s l "_Operation__status") (DepositOperation.undo self).
Proof.
  unfold DepositOperation.undo, DepositOperation.bank_account, DepositOperation.__str__,
    DepositOperation.value, Operation.status, Operation.id. names.
  keeps_body; first [by apply keeps_attr_setattr | apply keeps_attr_print].
Qed.

Lemma keeps_status_withdrawal_execute l self :
  keeps (λ s, attr_of s l "_Operation__status") (WithdrawalOperation.execute self).
Proof.
  unfold WithdrawalOperation.execute, WithdrawalOperation.bank_account,
    WithdrawalOperation.value, Operation.status. names.
  keeps_body; first [by apply keeps_attr_setattr | apply keeps_attr_list_append].
Qed.

Lemma keeps_status_withdrawal_undo l self :
  keeps (λ s, attr_of s l "_Operation__status") (WithdrawalOperation.undo self).
Proof.
  unfold WithdrawalOperation.undo, WithdrawalOperation.bank_account,
    WithdrawalOperation.value, Operation.status. names.
  keeps_body; by apply keeps_attr_setattr.
Qed.

Lemma keeps_status_run_call l c :
  keeps (λ s, attr_of s l "_Operation__status") (run_call c).
Proof.
  intros s. destruct c as [op|op]; simpl.
  - unfold call_execute. destruct (class_of op s) as [[]|]; try done.
    + apply keeps_status_deposit_execute.
    + apply keeps_status_withdrawal_execute.
    + apply keeps_status_deposit_execute.
  - unfold call_undo. destruct (class_of op s) as [[]|]; try done.
    + apply keeps_status_deposit_undo.
    + apply keeps_status_withdrawal_undo.
    + apply keeps_status_deposit_undo.
Qed.

(** [undo] never touches a log. *)
Lemma keeps_history_deposit_undo a self :
  keeps (λ s, history_of s a) (DepositOperation.undo self).
Proof.
  unfold DepositOperation.undo, DepositOperation.bank_account, DepositOperation.__str__,
    DepositOperation.value, Operation.status, Operation.id. names.
  keeps_body; first [by apply keeps_history_setattr | apply keeps_history_print].
Qed.

Lemma keeps_history_withdrawal_undo a self :
  keeps (λ s, history_of s a) (WithdrawalOperation.undo self).
Proof.
  unfold WithdrawalOperation.undo, WithdrawalOperation.bank_account,
    WithdrawalOperation.value, Operation.status. names.
  keeps_body; by apply keeps_history_setattr.
Qed.

Lemma keeps_history_call_undo a op : keeps (λ s, history_of s a) (call_undo op).
Proof.
  intros s. unfold call_undo. destruct (class_of op s) as [[]|]; try done.
  - apply keeps_history_deposit_undo.
  - apply keeps_history_withdrawal_undo.
  - apply keeps_history_deposit_undo.
Qed.

(** ** The sample heap *)

Lemma demo_account bal log : account_at (demo bal log) 2 bal 3 log.
Proof. split; [by exists 1, (VRef 1%positive) | done]. Qed.

Lemma demo_deposit bal log : deposit_at (demo bal log) 4 "I" 2 100.
Proof. exists CDepositOperation, (deposit_attrs 1 (VStr "") 2 100). by eauto 10. Qed.

Lemma demo_interest bal log : deposit_at (demo bal log) 7 "I" 2 5.
Proof. exists CInterestAccrualOperation, (deposit_attrs 4 (VStr "") 2 5). by eauto 10. Qed.

Lemma demo_withdrawal_150 bal log : withdrawal_at (demo bal log) 5 "I" 2 150.
Proof. exists (withdrawal_attrs 2 2 150). by eauto 10. Qed.

Lemma demo_withdrawal_40 bal log : withdrawal_at (demo bal log) 6 "I" 2 40.
Proof. exists (withdrawal_attrs 3 2 40). by eauto 10. Qed.

(** The state after such an [execute]: the account with the new balance,
    the operation as it was. *)
Lemma deposit_after_execute s o a v bal h ops :
  account_at s a bal h ops →
  deposit_at s o "I" a v →
  let s1 := snd (DepositOperation.execute (VRef o) s) in
  fst (DepositOperation.execute (VRef o) s) = Raise AttributeError
  ∧ account_at s1 a (bal + v) h ops
  ∧ deposit_at s1 o "I" a v.
Proof.
  intros Hacc Hop. simpl.
  rewrite (deposit_execute_state _ _ _ _ _ _ _ Hacc Hop). simpl.
  split; [done|]. split; [by eapply account_with_balance | by apply deposit_with_attr].
Qed.

Lemma withdrawal_after_execute s o a v bal h ops :
  account_at s a bal h ops →
  withdrawal_at s o "I" a v →
  (v <= bal)%Q →
  let s1 := snd (WithdrawalOperation.execute (VRef o) s) in
  fst (WithdrawalOperation.execute (VRef o) s) = Raise AttributeError
  ∧ account_at s1 a (bal - v) h ops
  ∧ withdrawal_at s1 o "I" a v.
Proof.
  intros Hacc Hop Hle. simpl.
  rewrite (withdrawal_execute_enough _ _ _ _ _ _ _ Hacc Hop Hle). simpl.
  split; [done|]. split; [by eapply account_with_balance | by apply withdrawal_with_attr].
Qed.

(** ** The claims about execute and undo *)

Lemma balance_account_at s a bal h ops :
  account_at s a bal h ops → BankAccount.balance (VRef a) s = (Ret (VDec bal), s).
Proof. intros H. apply getattr_Some, (account_attr_balance _ _ _ _ _ H). Qed.

Lemma status_deposit_at s o st a v :
  deposit_at s o st a v → Operation.status (VRef o) s = (Ret (VStr st), s).
Proof. intros H. apply getattr_Some, (deposit_at_attrs _ _ _ _ _ H). Qed.

Lemma status_withdrawal_at s o st a v :
  withdrawal_at s o st a v → Operation.status (VRef o) s = (Ret (VStr st), s).
Proof. intros H. apply getattr_Some, (withdrawal_at_attrs _ _ _ _ _ H). Qed.

(** C1 (the code departs from the claim).  A deposit in status ['I'] on an
    account: [execute] adds the amount to the balance and then raises
    [AttributeError], because it asks the account for [_operation_history]
    while the account has [_operations_history].  It does not return
    [True], the log is not extended, and the status still reads ['I']. *)
Theorem deposit_execute_raises s o a v bal h ops :
  account_at s a bal h ops →
  deposit_at s o "I" a v →
  let s' := snd (DepositOperation.execute (VRef o) s) in
  fst (DepositOperation.execute (VRef o) s) = Raise AttributeError
  ∧ BankAccount.balance (VRef a) s' = (Ret (VDec (bal + v)), s')
  ∧ history_of s' a = Some ops
  ∧ Operation.status (VRef o) s' = (Ret (VStr "I"), s').
Proof.
  intros Hacc Hop.
  destruct (deposit_after_execute _ _ _ _ _ _ _ Hacc Hop) as (Hr & Hacc' & Hop').
  split; [done|]. split; [by eapply balance_account_at|].
  split; [by eapply account_history_of | by eapply status_deposit_at].
Qed.

Lemma deposit_execute_raises_witness :
  let s' := snd (DepositOperation.execute (VRef 4) (demo 0 [])) in
  fst (DepositOperation.execute (VRef 4) (demo 0 [])) = Raise AttributeError
  ∧ BankAccount.balance (VRef 2) s' = (Ret (VDec (0 + 100)), s')
  ∧ history_of s' 2 = Some []
  ∧ Operation.status (VRef 4) s' = (Ret (VStr "I"), s').
Proof.
  apply (deposit_execute_raises (demo 0 []) 4 2 100 0 3 []).
  - apply demo_account.
  - apply demo_deposit.
Defined.

(** C2 (the code departs from the claim).  A withdrawal in status ['I']:
    with enough money [execute] subtracts the amount and then raises
    [AttributeError] (the same misspelt attribute), so it neither returns
    [True] nor extends the log nor changes the status; with too little
    money it returns [False] and leaves balance and log alone, but the
    ['E'] goes to [_WithdrawalOperation__status] and the status still reads
    ['I'], not Failed. *)
Theorem withdrawal_execute_outcomes s o a v bal h ops :
  account_at s a bal h ops →
  withdrawal_at s o "I" a v →
  let s' := snd (WithdrawalOperation.execute (VRef o) s) in
  ((v <= bal)%Q →
     fst (WithdrawalOperation.execute (VRef o) s) = Raise AttributeError
     ∧ BankAccount.balance (VRef a) s' = (Ret (VDec (bal - v)), s')
     ∧ history_of s' a = Some ops
     ∧ Operation.status (VRef o) s' = (Ret (VStr "I"), s'))
  ∧ ((bal < v)%Q →
     fst (WithdrawalOperation.execute (VRef o) s) = Ret false
     ∧ BankAccount.balance (VRef a) s' = (Ret (VDec bal), s')
     ∧ history_of s' a = Some ops
     ∧ Operation.status (VRef o) s' = (Ret (VStr "I"), s')
     ∧ attr_of s' o "_WithdrawalOperation__status" = Some (VStr "E")).
Proof.
  intros Hacc Hop. simpl. split.
  - intros Hle.
    destruct (withdrawal_after_execute _ _ _ _ _ _ _ Hacc Hop Hle) as (Hr & Hacc' & Hop').
    split; [done|]. split; [by eapply balance_account_at|].
    split; [by eapply account_history_of | by eapply status_withdrawal_at].
  - intros Hlt.
    rewrite (withdrawal_execute_short _ _ _ _ _ _ _ Hacc Hop Hlt). simpl.
    destruct (withdrawal_at_attrs _ _ _ _ _ Hop) as (Hst & _ & _).
    split; [done|]. split; [|split; [|split]].
    + apply getattr_Some. rewrite attr_of_with_attr.
      rewrite decide_False by (intros (? & ? & ?); congruence).
      by eapply account_attr_balance.
    + rewrite history_of_with_attr by done. by eapply account_history_of.
    + eapply status_withdrawal_at. by apply withdrawal_with_attr.
    + rewrite attr_of_with_attr. rewrite decide_True; [done|].
      split; [done|]. split; [done|]. by eapply attr_of_class.
Qed.

Lemma withdrawal_execute_outcomes_witness :
  (let s' := snd (WithdrawalOperation.execute (VRef 6) (demo 100 [])) in
   fst (WithdrawalOperation.execute (VRef 6) (demo 100 [])) = Raise AttributeError
   ∧ BankAccount.balance (VRef 2) s' = (Ret (VDec (100 - 40)), s')
   ∧ history_of s' 2 = Some []
   ∧ Operation.status (VRef 6) s' = (Ret (VStr "I"), s'))
  ∧ (let s' := snd (WithdrawalOperation.execute (VRef 5) (demo 100 [])) in
     fst (WithdrawalOperation.execute (VRef 5) (demo 100 [])) = Ret false
     ∧ BankAccount.balance (VRef 2) s' = (Ret (VDec 100), s')
     ∧ history_of s' 2 = Some []
     ∧ Operation.status (VRef 5) s' = (Ret (VStr "I"), s')
     ∧ attr_of s' 5 "_WithdrawalOperation__status" = Some (VStr "E")).
Proof.
  split.
  - apply (withdrawal_execute_outcomes (demo 100 []) 6 2 40 100 3 []).
    + apply demo_account.
    + apply demo_withdrawal_40.
    + unfold Qle. simpl. lia.
  - apply (withdrawal_execute_outcomes (demo 100 []) 5 2 150 100 3 []).
    + apply demo_account.
    + apply demo_withdrawal_150.
    + unfold Qlt. simpl. lia.
Defined.

(** After an [execute] that did return [True], the status still reads
    ['I'], so the guard of [undo] stops it: [undo] returns [False] and the
    balance keeps the change. *)
Lemma deposit_undo_after_true s o s' :
  DepositOperation.execute (VRef o) s = (Ret true, s') →
  DepositOperation.undo (VRef o) s' = (Ret false, s').
Proof.
  intros Hex.
  pose proof (keeps_status_deposit_execute o (VRef o) s) as Hk.
  rewrite Hex in Hk. simpl in Hk.
  revert Hex. unfold DepositOperation.execute at 1, Operation.status. names.
  rewrite bind_eq, getattr_attr_of.
  destruct (attr_of s o "_Operation__status") as [st|] eqn:Hst; [|done].
  destruct (py_ne_str st "I") eqn:Hne; [done|]. intros _.
  destruct st as [| |t| |]; try done. simpl in Hne.
  apply negb_false_iff, String.eqb_eq in Hne. subst t.
  by apply (deposit_undo_guard _ _ (VStr "I")).
Qed.

Lemma withdrawal_undo_after_true s o s' :
  WithdrawalOperation.execute (VRef o) s = (Ret true, s') →
  WithdrawalOperation.undo (VRef o) s' = (Ret false, s').
Proof.
  intros Hex.
  pose proof (keeps_status_withdrawal_execute o (VRef o) s) as Hk.
  rewrite Hex in Hk. simpl in Hk.
  revert Hex. unfold WithdrawalOperation.execute at 1, Operation.status. names.
  rewrite bind_eq, getattr_attr_of.
  destruct (attr_of s o "_Operation__status") as [st|] eqn:Hst; [|done].
  destruct (py_ne_str st "I") eqn:Hne; [done|]. intros _.
  destruct st as [| |t| |]; try done. simpl in Hne.
  apply negb_false_iff, String.eqb_eq in Hne. subst t.
  by apply (withdrawal_undo_guard _ _ (VStr "I")).
Qed.

(** Such an [execute] exists on the patched heap: it returns [True] and
    logs the operation, the balance goes from 0 to 100, and the [undo] that
    follows returns [False] and leaves the balance at 100. *)
Example deposit_undo_after_true_patched :
  let s1 := snd (DepositOperation.execute (VRef 4) (patched 0 [])) in
  fst (DepositOperation.execute (VRef 4) (patched 0 [])) = Ret true
  ∧ history_of s1 2 = Some [VRef 4]
  ∧ attr_of s1 4 "_DepositOperation__status" = Some (VStr "D")
  ∧ Operation.status (VRef 4) s1 = (Ret (VStr "I"), s1)
  ∧ DepositOperation.undo (VRef 4) s1 = (Ret false, s1)
  ∧ BankAccount.balance (VRef 2) s1 = (Ret (VDec (0 + 100)), s1).
Proof. vm_compute. repeat split. Qed.

(** C3 (the code departs from the claim).  [undo] right after [execute]
    does not give the balance back.  On an account as [__init__] shapes it,
    [execute] raises after it has changed the balance, the status still
    reads ['I'], and [undo] then returns [False] without touching anything:
    the balance stays at [bal + v] after a deposit and at [bal - v] after a
    withdrawal. *)
Theorem undo_after_execute_keeps_the_change s o a v bal h ops :
  account_at s a bal h ops →
  (deposit_at s o "I" a v →
     let s1 := snd (DepositOperation.execute (VRef o) s) in
     DepositOperation.undo (VRef o) s1 = (Ret false, s1)
     ∧ BankAccount.balance (VRef a) s1 = (Ret (VDec (bal + v)), s1))
  ∧ (withdrawal_at s o "I" a v → (v <= bal)%Q →
     let s1 := snd (WithdrawalOperation.execute (VRef o) s) in
     WithdrawalOperation.undo (VRef o) s1 = (Ret false, s1)
     ∧ BankAccount.balance (VRef a) s1 = (Ret (VDec (bal - v)), s1)).
Proof.
  intros Hacc. split.
  - intros Hop.
    destruct (deposit_after_execute _ _ _ _ _ _ _ Hacc Hop) as (_ & Hacc' & Hop').
    split; [|by eapply balance_account_at].
    destruct (deposit_at_attrs _ _ _ _ _ Hop') as (Hst & _ & _).
    by apply (deposit_undo_guard _ _ (VStr "I")).
  - intros Hop Hle.
    destruct (withdrawal_after_execute _ _ _ _ _ _ _ Hacc Hop Hle) as (_ & Hacc' & Hop').
    split; [|by eapply balance_account_at].
    destruct (withdrawal_at_attrs _ _ _ _ _ Hop') as (Hst & _ & _).
    by apply (withdrawal_undo_guard _ _ (VStr "I")).
Qed.

Lemma undo_after_execute_keeps_the_change_witness :
  (let s1 := snd (DepositOperation.execute (VRef 4) (demo 0 [])) in
   DepositOperation.undo (VRef 4) s1 = (Ret false, s1)
   ∧ BankAccount.balance (VRef 2) s1 = (Ret (VDec (0 + 100)), s1))
  ∧ (let s1 := snd (WithdrawalOperation.execute (VRef 6) (demo 100 [])) in
     WithdrawalOperation.undo (VRef 6) s1 = (Ret false, s1)
     ∧ BankAccount.balance (VRef 2) s1 = (Ret (VDec (100 - 40)), s1)).
Proof.
  split.
  - apply (undo_after_execute_keeps_the_change (demo 0 []) 4 2 100 0 3 []).
    + apply demo_account.
    + apply demo_deposit.
  - apply (undo_after_execute_keeps_the_change (demo 100 []) 6 2 40 100 3 []).
    + apply demo_account.
    + apply demo_withdrawal_40.
    + unfold Qle. simpl. lia.
Defined.

(** C4 (the code departs from the claim).  The guards themselves are as
    claimed ([deposit_execute_guard], [deposit_undo_guard],
    [withdrawal_execute_guard], [withdrawal_undo_guard]), and [undo] before
    [execute] returns [False] and changes nothing.  But the status never
    leaves ['I'], so a second [execute] is not stopped: it raises
    [AttributeError] like the first one, after adding the amount to the
    balance a second time. *)
Theorem second_execute_repeats_the_update s o a v bal h ops :
  account_at s a bal h ops →
  deposit_at s o "I" a v →
  let s1 := snd (DepositOperation.execute (VRef o) s) in
  let s2 := snd (DepositOperation.execute (VRef o) s1) in
  DepositOperation.undo (VRef o) s = (Ret false, s)
  ∧ BankAccount.balance (VRef a) s1 = (Ret (VDec (bal + v)), s1)
  ∧ fst (DepositOperation.execute (VRef o) s1) = Raise AttributeError
  ∧ BankAccount.balance (VRef a) s2 = (Ret (VDec (bal + v + v)), s2).
Proof.
  intros Hacc Hop.
  destruct (deposit_after_execute _ _ _ _ _ _ _ Hacc Hop) as (_ & Hacc1 & Hop1).
  destruct (deposit_after_execute _ _ _ _ _ _ _ Hacc1 Hop1) as (Hr2 & Hacc2 & _).
  destruct (deposit_at_attrs _ _ _ _ _ Hop) as (Hst & _ & _).
  split; [by apply (deposit_undo_guard _ _ (VStr "I"))|].
  split; [by eapply balance_account_at|].
  split; [done | by eapply balance_account_at].
Qed.

Lemma second_execute_repeats_the_update_witness :
  let s1 := snd (DepositOperation.execute (VRef 4) (demo 0 [])) in
  let s2 := snd (DepositOperation.execute (VRef 4) s1) in
  DepositOperation.undo (VRef 4) (demo 0 []) = (Ret false, demo 0 [])
  ∧ BankAccount.balance (VRef 2) s1 = (Ret (VDec (0 + 100)), s1)
  ∧ fst (DepositOperation.execute (VRef 4) s1) = Raise AttributeError
  ∧ BankAccount.balance (VRef 2) s2 = (Ret (VDec (0 + 100 + 100)), s2).
Proof.
  apply (second_execute_repeats_the_update (demo 0 []) 4 2 100 0 3 []).
  - apply demo_account.
  - apply demo_deposit.
Defined.

(** ** The claims about construction *)

Section Alloc.
Variables (s : state) (l : loc) (c : cls).
Hypothesis fresh_l : heap s !! l = None.

Let s0 := set_heap (<[l := Instance c ∅]> (heap s)) s.

Lemma class_of_alloc v c' : class_of v s = Some c' → class_of v s0 = Some c'.
Proof using fresh_l.
  destruct v as [| | | |l']; try done. unfold class_of, s0. simpl.
  destruct (decide (l = l')) as [->|Hne].
  - by rewrite fresh_l.
  - by rewrite lookup_insert_ne.
Qed.

Lemma class_of_alloc_inv v c' :
  class_of v s0 = Some c' → class_of v s = Some c' ∨ (v = VRef l ∧ c' = c).
Proof using fresh_l.
  destruct v as [| | | |l']; try done. unfold class_of, s0. simpl.
  destruct (decide (l = l')) as [->|Hne].
  - rewrite lookup_insert_eq. intros [= <-]. by right.
  - rewrite lookup_insert_ne by done. by left.
Qed.

Lemma is_User_alloc v : c ≠ CUser → is_User v s0 = is_User v s.
Proof using fresh_l.
  intros Hc. unfold is_User.
  destruct (class_of v s0) as [c0|] eqn:H0.
  - destruct (class_of_alloc_inv _ _ H0) as [-> | [-> ->]]; [done|].
    unfold class_of. rewrite fresh_l. by destruct c.
  - destruct (class_of v s) as [c1|] eqn:H1; [|done].
    by rewrite (class_of_alloc _ _ H1) in H0.
Qed.

Lemma is_BankAccount_alloc v : c ≠ CBankAccount → is_BankAccount v s0 = is_BankAccount v s.
Proof using fresh_l.
  intros Hc. unfold is_BankAccount.
  destruct (class_of v s0) as [c0|] eqn:H0.
  - destruct (class_of_alloc_inv _ _ H0) as [-> | [-> ->]]; [done|].
    unfold class_of. rewrite fresh_l. by destruct c.
  - destruct (class_of v s) as [c1|] eqn:H1; [|done].
    by rewrite (class_of_alloc _ _ H1) in H0.
Qed.

Lemma attr_of_alloc a n x : attr_of s a n = Some x → attr_of s0 a n = Some x.
Proof using fresh_l.
  unfold attr_of, s0. simpl. destruct (decide (l = a)) as [Heq|Hne].
  - rewrite <- Heq, fresh_l. done.
  - by rewrite lookup_insert_ne.
Qed.

End Alloc.

(** A BankAccount instance of a heap whose accounts hold [Decimal]
    balances. *)
Lemma accounts_ok_balance s v :
  accounts_ok s → is_BankAccount v s = true →
  ∃ a bal, v = VRef a ∧ attr_of s a "_balance" = Some (VDec bal).
Proof.
  intros Hok Hv. unfold is_BankAccount, class_of in Hv.
  destruct v as [| | | |a]; try done.
  destruct (heap s !! a) as [[c attrs|xs]|] eqn:Ha; try done.
  destruct c; try done.
  specialize (Hok _ _ Ha). simpl in Hok.
  destruct (attrs !! "_balance") as [[| | |bal|]|] eqn:Hbal; try done.
  exists a, bal. split; [done|]. unfold attr_of. by rewrite Ha.
Qed.

Lemma run_ctor_ill_typed c s :
  well_typed_args c s = false → run_ctor c s = (Raise ValueError, s).
Proof.
  intros Hty. destruct c as [user|a v content|a v content|a r]; simpl in *.
  - apply construct_raises_at. simpl.
    apply BankAccount_init_ill_typed.
    by rewrite is_User_alloc by (apply fresh_loc_None || done).
  - apply construct_raises_at. simpl.
    apply DepositOperation_init_ill_typed.
    by rewrite is_BankAccount_alloc by (apply fresh_loc_None || done).
  - apply construct_raises_at. simpl.
    apply WithdrawalOperation_init_ill_typed.
    by rewrite is_BankAccount_alloc by (apply fresh_loc_None || done).
  - apply construct_raises_at. simpl.
    apply InterestAccrualOperation_init_ill_typed.
    by rewrite is_BankAccount_alloc by (apply fresh_loc_None || done).
Qed.

Lemma run_ctor_well_typed c s :
  accounts_ok s →
  well_typed_args c s = true → run_ctor c s = (Raise UnboundLocalError, s).
Proof.
  intros Hok Hty. destruct c as [user|a v content|a v content|a r]; simpl in *.
  - apply construct_raises_at. simpl.
    apply BankAccount_init_well_typed.
    by rewrite is_User_alloc by (apply fresh_loc_None || done).
  - apply andb_true_iff in Hty as [Ha Hv].
    apply construct_raises_at. simpl.
    apply DepositOperation_init_well_typed; [|done].
    by rewrite is_BankAccount_alloc by (apply fresh_loc_None || done).
  - apply andb_true_iff in Hty as [Ha Hv].
    apply construct_raises_at. simpl.
    apply WithdrawalOperation_init_well_typed; [|done].
    by rewrite is_BankAccount_alloc by (apply fresh_loc_None || done).
  - apply andb_true_iff in Hty as [Ha Hr].
    destruct (accounts_ok_balance _ _ Hok Ha) as (la & bal & -> & Hbal).
    destruct r as [| | |rate|]; try done.
    apply construct_raises_at. simpl.
    rewrite (InterestAccrualOperation_init_amount _ _ _ bal).
    + apply DepositOperation_init_well_typed; [|done].
      by rewrite is_BankAccount_alloc by (apply fresh_loc_None || done).
    + by rewrite is_BankAccount_alloc by (apply fresh_loc_None || done).
    + apply attr_of_alloc; [apply fresh_loc_None | done].
Qed.

Lemma demo_accounts_ok bal log : accounts_ok (demo bal log).
Proof.
  unfold accounts_ok, demo, demo_heap. simpl.
  repeat (apply map_Forall_insert_2; [reflexivity|]).
  apply map_Forall_empty.
Qed.

(** C5 (the code departs from the claim).  [InterestAccrualOperation]
    does compute [rate * balance] from the balance at the time of the call
    and hands it to [DepositOperation.__init__] as the amount, but the
    construction then fails with [UnboundLocalError] in
    [Operation.__init__]: no operation holding that amount comes to exist,
    and the state is the one before the call. *)
Theorem interest_accrual_is_never_constructed s a bal h ops rate :
  account_at s a bal h ops →
  (∀ self, InterestAccrualOperation.__init__ self (VRef a) (VDec rate) s =
           DepositOperation.__init__ self (VRef a) (VDec (rate * bal)) (VStr "") s)
  ∧ InterestAccrualOperation.new (VRef a) (VDec rate) s = (Raise UnboundLocalError, s).
Proof.
  intros Hacc.
  pose proof (account_attr_balance _ _ _ _ _ Hacc) as Hbal.
  assert (is_BankAccount (VRef a) s = true) as Ha.
  { destruct Hacc as [(i & u & Ha) _]. unfold is_BankAccount, class_of. by rewrite Ha. }
  split.
  - intros self. by apply InterestAccrualOperation_init_amount.
  - apply construct_raises_at. simpl.
    rewrite (InterestAccrualOperation_init_amount _ _ _ bal).
    + apply DepositOperation_init_well_typed; [|done].
      by rewrite is_BankAccount_alloc by (apply fresh_loc_None || done).
    + by rewrite is_BankAccount_alloc by (apply fresh_loc_None || done).
    + apply attr_of_alloc; [apply fresh_loc_None | done].
Qed.

Lemma interest_accrual_is_never_constructed_witness :
  (∀ self, InterestAccrualOperation.__init__ self (VRef 2) (VDec (1 # 10)) (demo 50 []) =
           DepositOperation.__init__ self (VRef 2) (VDec ((1 # 10) * 50)) (VStr "")
             (demo 50 []))
  ∧ InterestAccrualOperation.new (VRef 2) (VDec (1 # 10)) (demo 50 []) =
    (Raise UnboundLocalError, demo 50 []).
Proof.
  apply (interest_accrual_is_never_constructed (demo 50 []) 2 50 3 [] (1 # 10)).
  apply demo_account.
Defined.

(** C6 (the code departs from the claim).  No id is ever handed out.
    Whatever constructor calls a client makes, in whatever order, each one
    raises ([UnboundLocalError] when the arguments pass the type checks,
    [ValueError] when they do not), none returns an instance, and the state
    after the calls is the state before them: [id_counter] and
    [operation_id_counter] keep their values. *)
Theorem constructor_calls_assign_no_id s cs :
  accounts_ok s →
  run_ctors cs s =
  (map (λ c, Raise (if well_typed_args c s then UnboundLocalError else ValueError)) cs, s).
Proof.
  intros Hok. induction cs as [|c cs IH]; [done|].
  simpl. destruct (well_typed_args c s) eqn:Hty.
  - rewrite (run_ctor_well_typed _ _ Hok Hty). by rewrite IH.
  - rewrite (run_ctor_ill_typed _ _ Hty). by rewrite IH.
Qed.

Lemma constructor_calls_assign_no_id_witness :
  run_ctors [NewBankAccount (VRef 1);
             NewDepositOperation (VRef 2) (VDec 100) (VStr "salary");
             NewWithdrawalOperation (VRef 2) (VDec 40) (VStr "");
             NewInterestAccrualOperation (VRef 2) (VDec (1 # 10));
             NewBankAccount (VRef 2)] (demo 0 []) =
  ([Raise UnboundLocalError; Raise UnboundLocalError; Raise UnboundLocalError;
    Raise UnboundLocalError; Raise ValueError], demo 0 []).
Proof.
  apply (constructor_calls_assign_no_id (demo 0 [])
           [NewBankAccount (VRef 1);
            NewDepositOperation (VRef 2) (VDec 100) (VStr "salary");
            NewWithdrawalOperation (VRef 2) (VDec 40) (VStr "");
            NewInterestAccrualOperation (VRef 2) (VDec (1 # 10));
            NewBankAccount (VRef 2)]).
  apply demo_accounts_ok.
Defined.

(** C8.  A constructor call whose arguments do not pass the [isinstance]
    checks (a user that is not a [User], an account that is not a
    [BankAccount], an amount or rate that is not a [Decimal]) raises
    [ValueError]; the caller gets no instance and the state is the one
    before the call. *)
Theorem ill_typed_construction_raises_ValueError c s :
  well_typed_args c s = false →
  run_ctor c s = (Raise ValueError, s).
Proof. apply run_ctor_ill_typed. Qed.

Lemma ill_typed_construction_raises_ValueError_witness :
  run_ctor (NewBankAccount (VStr "Bob")) (demo 0 []) = (Raise ValueError, demo 0 [])
  ∧ run_ctor (NewDepositOperation (VRef 1) (VDec 100) (VStr "")) (demo 0 []) =
    (Raise ValueError, demo 0 [])
  ∧ run_ctor (NewWithdrawalOperation (VRef 2) (VInt 100) (VStr "")) (demo 0 []) =
    (Raise ValueError, demo 0 [])
  ∧ run_ctor (NewInterestAccrualOperation (VRef 2) (VStr "0.1")) (demo 0 []) =
    (Raise ValueError, demo 0 [])
  ∧ run_ctor (NewInterestAccrualOperation VNone (VDec (1 # 10))) (demo 0 []) =
    (Raise ValueError, demo 0 []).
Proof.
  split; [|split; [|split; [|split]]];
    apply ill_typed_construction_raises_ValueError; reflexivity.
Defined.

(** Numbers that fit the context. *)
Lemma in_context_int q z :
  (q == inject_Z z)%Q → Z.abs z < 10 ^ 28 → in_context q.
Proof.
  intros Hq Hz. exists z, 0. split; [done|]. split; [lia|]. split; [lia|].
  rewrite Hq. simpl. ring.
Qed.

Lemma below_overflow_small q : (Qabs q < 10)%Q → below_overflow q.
Proof.
  intros H. unfold below_overflow. eapply Qlt_le_trans; [exact H|].
  change (inject_Z 10 <= inject_Z (10 ^ 999999))%Q. rewrite <- Zle_Qle.
  apply (Z.le_trans _ (10 ^ 1)); [done|].
  apply Z.pow_le_mono_r; lia.
Qed.

Lemma run_ctor_interest s a rate bal :
  is_BankAccount (VRef a) s = true →
  attr_of s a "_balance" = Some (VDec bal) →
  run_ctor (NewInterestAccrualOperation (VRef a) (VDec rate)) s =
  (Raise UnboundLocalError, s).
Proof.
  intros Ha Hbal. apply construct_raises_at. simpl.
  rewrite (InterestAccrualOperation_init_amount _ _ _ bal).
  - apply DepositOperation_init_well_typed; [|done].
    by rewrite is_BankAccount_alloc by (apply fresh_loc_None || done).
  - by rewrite is_BankAccount_alloc by (apply fresh_loc_None || done).
  - apply attr_of_alloc; [apply fresh_loc_None | done].
Qed.

(** C10, as stated, fails: an argument list can pass the type checks and
    the construction raise another error first.  [InterestAccrualOperation]
    on a [BankAccount] instance that has no [_balance] passes both
    [isinstance] checks and raises [AttributeError] when it reads
    [bank_account.balance], before [Operation.__init__] is reached. *)
Lemma interest_accrual_on_bare_account :
  well_typed_args (NewInterestAccrualOperation (VRef 1) (VDec (1 # 10))) bare_account = true
  ∧ run_ctor (NewInterestAccrualOperation (VRef 1) (VDec (1 # 10))) bare_account =
    (Raise AttributeError, bare_account)
  ∧ fst (run_ctor (NewInterestAccrualOperation (VRef 1) (VDec (1 # 10))) bare_account)
    ≠ Raise UnboundLocalError.
Proof.
  split; [reflexivity|].
  assert (run_ctor (NewInterestAccrualOperation (VRef 1) (VDec (1 # 10))) bare_account =
          (Raise AttributeError, bare_account)) as H by (vm_compute; reflexivity).
  split; [exact H|]. rewrite H. discriminate.
Qed.

(** C10, amended.  A constructor call whose arguments pass the type checks
    raises [UnboundLocalError]: [id_counter += 1] and
    [operation_id_counter += 1] read a local name that has no value, the
    body having no [global] statement.  For [BankAccount],
    [DepositOperation] and [WithdrawalOperation] this holds on every heap;
    for [InterestAccrualOperation], which evaluates
    [rate * bank_account.balance] first, it holds when the account has a
    finite [Decimal] balance and the product of the finite rate and the
    balance does not overflow.  The caller gets no instance and the state
    is the one before the call. *)
Theorem well_typed_construction_raises c s :
  well_typed_args c s = true →
  match c with
  | NewInterestAccrualOperation a r =>
      ∀ rate bal,
        r = VDec rate →
        BankAccount.balance a s = (Ret (VDec bal), s) →
        below_overflow (rate * bal) →
        run_ctor c s = (Raise UnboundLocalError, s)
  | _ => run_ctor c s = (Raise UnboundLocalError, s)
  end.
Proof.
  intros Hty. destruct c as [user|a v content|a v content|a r]; simpl in *.
  - apply construct_raises_at. simpl.
    apply BankAccount_init_well_typed.
    by rewrite is_User_alloc by (apply fresh_loc_None || done).
  - apply andb_true_iff in Hty as [Ha Hv].
    apply construct_raises_at. simpl.
    apply DepositOperation_init_well_typed; [|done].
    by rewrite is_BankAccount_alloc by (apply fresh_loc_None || done).
  - apply andb_true_iff in Hty as [Ha Hv].
    apply construct_raises_at. simpl.
    apply WithdrawalOperation_init_well_typed; [|done].
    by rewrite is_BankAccount_alloc by (apply fresh_loc_None || done).
  - intros rate bal -> Hbal _.
    apply andb_true_iff in Hty as [Ha _].
    destruct a as [| | | |la]; try done.
    unfold BankAccount.balance in Hbal. rewrite getattr_attr_of in Hbal.
    destruct (attr_of s la "_balance") as [b|] eqn:Hb; [|done].
    injection Hbal as ->. by eapply run_ctor_interest.
Qed.

Lemma well_typed_construction_raises_witness :
  run_ctor (NewBankAccount (VRef 1)) (demo 0 []) = (Raise UnboundLocalError, demo 0 [])
  ∧ run_ctor (NewDepositOperation (VRef 2) (VDec 100) (VStr "")) (demo 0 []) =
    (Raise UnboundLocalError, demo 0 [])
  ∧ run_ctor (NewWithdrawalOperation (VRef 2) (VDec 40) (VStr "")) (demo 0 []) =
    (Raise UnboundLocalError, demo 0 [])
  ∧ run_ctor (NewInterestAccrualOperation (VRef 2) (VDec (1 # 10))) (demo 50 []) =
    (Raise UnboundLocalError, demo 50 []).
Proof.
  split; [|split; [|split]].
  - apply (well_typed_construction_raises (NewBankAccount (VRef 1)) (demo 0 [])).
    reflexivity.
  - apply (well_typed_construction_raises
             (NewDepositOperation (VRef 2) (VDec 100) (VStr "")) (demo 0 [])).
    reflexivity.
  - apply (well_typed_construction_raises
             (NewWithdrawalOperation (VRef 2) (VDec 40) (VStr "")) (demo 0 [])).
    reflexivity.
  - apply (well_typed_construction_raises
             (NewInterestAccrualOperation (VRef 2) (VDec (1 # 10))) (demo 50 [])
             eq_refl (1 # 10)%Q 50%Q).
    + reflexivity.
    + reflexivity.
    + apply below_overflow_small. reflexivity.
Defined.

(** ** The status that clients read *)

Lemma keeps_status_run_calls l cs s :
  attr_of (run_calls cs s) l "_Operation__status" = attr_of s l "_Operation__status".
Proof.
  revert s. induction cs as [|c cs IH]; intros s; [done|].
  simpl. rewrite IH. apply keeps_status_run_call.
Qed.

(** C9.  The [status] property reads [_Operation__status]; the methods of
    the subclasses write [_DepositOperation__status] and
    [_WithdrawalOperation__status], which are other attributes.  So an
    operation whose status reads ['I'] still reads ['I'] after any sequence
    of [execute] and [undo] calls, on this or on any other operation,
    whether the calls return or raise. *)
Theorem status_always_reads_I cs s o :
  Operation.status (VRef o) s = (Ret (VStr "I"), s) →
  Operation.status (VRef o) (run_calls cs s) = (Ret (VStr "I"), run_calls cs s)
  ∧ mangle "DepositOperation" "__status" ≠ mangle "Operation" "__status"
  ∧ mangle "WithdrawalOperation" "__status" ≠ mangle "Operation" "__status".
Proof.
  intros Hst. split; [|done].
  revert Hst. unfold Operation.status. names.
  rewrite !getattr_attr_of, keeps_status_run_calls.
  destruct (attr_of s o "_Operation__status") as [st|]; [|done].
  by intros [= ->].
Qed.

Lemma status_always_reads_I_witness :
  let cs := [Execute (VRef 4); Undo (VRef 4); Execute (VRef 5); Execute (VRef 6);
             Undo (VRef 6); Execute (VRef 7); Undo (VRef 7); Execute (VRef 4)] in
  (Operation.status (VRef 4) (run_calls cs (demo 100 [])) =
   (Ret (VStr "I"), run_calls cs (demo 100 []))
   ∧ mangle "DepositOperation" "__status" ≠ mangle "Operation" "__status"
   ∧ mangle "WithdrawalOperation" "__status" ≠ mangle "Operation" "__status")
  ∧ (Operation.status (VRef 5) (run_calls cs (demo 100 [])) =
     (Ret (VStr "I"), run_calls cs (demo 100 []))
     ∧ mangle "DepositOperation" "__status" ≠ mangle "Operation" "__status"
     ∧ mangle "WithdrawalOperation" "__status" ≠ mangle "Operation" "__status").
Proof.
  split; apply status_always_reads_I; reflexivity.
Defined.

(** ** The log and its accessor *)

Lemma py_str_operation s v t :
  operation_string s v = Some t → py_str v s = (Ret t, s).
Proof.
  unfold operation_string, py_str, class_of.
  destruct v as [| | | |l]; try done.
  destruct (heap s !! l) as [[c attrs|xs]|] eqn:Hl; try done.
  destruct (operation_kind c) as [k|] eqn:Hk; [|done].
  destruct (attrs !! "_Operation__id") as [[|i| | |]|] eqn:Hid; try done.
  intros [= <-].
  assert (attr_of s l "_Operation__id" = Some (VInt i)) as Hattr
    by (unfold attr_of; by rewrite Hl).
  destruct c; simplify_eq/=.
  - unfold DepositOperation.__str__, Operation.id. names.
    by next_ret (getattr_Some _ _ _ _ Hattr).
  - unfold WithdrawalOperation.__str__, Operation.id. names.
    by next_ret (getattr_Some _ _ _ _ Hattr).
  - unfold DepositOperation.__str__, Operation.id. names.
    by next_ret (getattr_Some _ _ _ _ Hattr).
Qed.

Section Result_list.
Variables (s : state) (r : loc).
Hypothesis fresh_r : heap s !! r = None.

(** The state in which the new list at [r] holds [xs]. *)
Let with_result (xs : list val) : state := set_heap (<[r := PyList xs]> (heap s)) s.

Lemma attr_of_result xs a n : attr_of (with_result xs) a n = attr_of s a n.
Proof using fresh_r.
  unfold attr_of, with_result. simpl. destruct (decide (r = a)) as [Heq|Hne].
  - rewrite <- Heq, lookup_insert_eq. by rewrite fresh_r.
  - by rewrite lookup_insert_ne.
Qed.

Lemma list_at_result xs l ys : list_at s l = Some ys → list_at (with_result xs) l = Some ys.
Proof using fresh_r.
  unfold list_at, with_result. simpl. destruct (decide (r = l)) as [Heq|Hne].
  - rewrite <- Heq. by rewrite fresh_r.
  - by rewrite lookup_insert_ne.
Qed.

Lemma operation_string_result xs v : operation_string (with_result xs) v = operation_string s v.
Proof using fresh_r.
  destruct v as [| | | |l]; try done.
  unfold operation_string, with_result. simpl. destruct (decide (r = l)) as [Heq|Hne].
  - rewrite <- Heq, lookup_insert_eq. by rewrite fresh_r.
  - by rewrite lookup_insert_ne.
Qed.

Lemma list_append_result xs x :
  list_append (VRef r) x (with_result xs) = (Ret tt, with_result (xs ++ [x])).
Proof.
  unfold list_append, with_result. simpl. rewrite lookup_insert_eq.
  unfold set_heap. simpl. by rewrite insert_insert_eq.
Qed.

(** The loop of [operations_history]: one string per item, in order. *)
Lemma for_each_result items strs acc :
  Forall2 (λ v t, operation_string s v = Some t) items strs →
  for_each items (λ operation, t ← py_str operation; list_append (VRef r) (VStr t))
    (with_result acc) =
  (Ret tt, with_result (acc ++ (VStr <$> strs))).
Proof using fresh_r.
  intros H. revert acc. induction H as [|v t items strs Hv _ IH]; intros acc.
  - simpl. by rewrite app_nil_r.
  - cbn [for_each].
    assert (py_str v (with_result acc) = (Ret t, with_result acc)) as Hstr
      by (apply py_str_operation; by rewrite operation_string_result).
    rewrite bind_eq. next_ret Hstr. rewrite list_append_result.
    rewrite IH. by rewrite <- app_assoc.
Qed.

Lemma history_of_result c a ops :
  history_of s a = Some ops →
  history_of (set_heap (<[r := c]> (heap s)) s) a = Some ops.
Proof using fresh_r.
  unfold history_of, attr_of, list_at. simpl.
  destruct (decide (r = a)) as [Heq|Hne].
  - rewrite <- Heq. by rewrite fresh_r.
  - rewrite lookup_insert_ne by done.
    destruct (heap s !! a) as [[c' attrs|]|]; try done.
    destruct (attrs !! "_operations_history") as [[| | | |h]|]; try done.
    destruct (decide (r = h)) as [Heq|Hne'].
    + rewrite <- Heq. by rewrite fresh_r.
    + by rewrite lookup_insert_ne.
Qed.

End Result_list.

Lemma operations_history_state s a bal h ops strs :
  account_at s a bal h ops →
  Forall2 (λ v t, operation_string s v = Some t) ops strs →
  BankAccount.operations_history (VRef a) s =
  (Ret (VRef (fresh (dom (heap s)))),
   set_heap (<[fresh (dom (heap s)) := PyList (VStr <$> strs)]> (heap s)) s).
Proof.
  intros Hacc Hstrs. pose proof (fresh_loc_None s) as Hr.
  set (r := fresh (dom (heap s))) in *.
  unfold BankAccount.operations_history.
  assert (new_list s = (Ret (VRef r), set_heap (<[r := PyList []]> (heap s)) s)) as Hnew
    by done.
  next_ret Hnew.
  pose proof (account_attr_history _ _ _ _ _ Hacc) as Hh.
  rewrite <- (attr_of_result s r Hr []) in Hh.
  next_ret (getattr_Some _ _ _ _ Hh).
  assert (iterate (VRef h) (set_heap (<[r := PyList []]> (heap s)) s) =
          (Ret ops, set_heap (<[r := PyList []]> (heap s)) s)) as Hit.
  { destruct Hacc as [_ Hl].
    pose proof (list_at_result s r Hr [] h ops) as Hl'.
    unfold list_at in Hl'. rewrite Hl in Hl'. specialize (Hl' eq_refl).
    unfold iterate. revert Hl'. simpl.
    by destruct (<[r:=PyList []]> (heap s) !! h) as [[]|]; intros [= ->]. }
  next_ret Hit.
  next_ret (for_each_result s r Hr ops strs [] Hstrs).
  reflexivity.
Qed.

(** C7.  [undo] leaves every log as it is, in every state, for every
    operation and whatever its outcome.  The accessor
    [operations_history] returns a list object at an address that was not
    in use before the call, holding the strings ["<id>: <Kind>"] of the
    logged operations in order; nothing else in the heap changes, and
    whatever a caller then stores in that list, the log of the account is
    the same. *)
Theorem undo_keeps_history_and_accessor_copies s a bal h ops strs :
  account_at s a bal h ops →
  Forall2 (λ v t, operation_string s v = Some t) ops strs →
  (∀ s0 op a0, history_of (snd (call_undo op s0)) a0 = history_of s0 a0)
  ∧ history_of (snd (BankAccount.operations_history (VRef a) s)) a = Some ops
  ∧ ∃ r, heap s !! r = None
      ∧ BankAccount.operations_history (VRef a) s =
        (Ret (VRef r), set_heap (<[r := PyList (VStr <$> strs)]> (heap s)) s)
      ∧ ∀ c, history_of (set_heap (<[r := c]> (heap s)) s) a = Some ops.
Proof.
  intros Hacc Hstrs.
  pose proof (operations_history_state _ _ _ _ _ _ Hacc Hstrs) as Hcall.
  pose proof (fresh_loc_None s) as Hr.
  pose proof (account_history_of _ _ _ _ _ Hacc) as Hlog.
  split; [intros s0 op a0; apply keeps_history_call_undo|].
  split.
  - rewrite Hcall. simpl. by apply history_of_result.
  - exists (fresh (dom (heap s))). split; [done|]. split; [done|].
    intros c. by apply history_of_result.
Qed.

Lemma undo_keeps_history_and_accessor_copies_witness :
  let s := demo 100 [VRef 4; VRef 6] in
  (∀ s0 op a0, history_of (snd (call_undo op s0)) a0 = history_of s0 a0)
  ∧ history_of (snd (BankAccount.operations_history (VRef 2) s)) 2 = Some [VRef 4; VRef 6]
  ∧ ∃ r, heap s !! r = None
      ∧ BankAccount.operations_history (VRef 2) s =
        (Ret (VRef r),
         set_heap (<[r := PyList (VStr <$> ["1: DepositOperation"; "3: WithdrawalOperation"])]>
                     (heap s)) s)
      ∧ ∀ c, history_of (set_heap (<[r := c]> (heap s)) s) 2 = Some [VRef 4; VRef 6].
Proof.
  apply (undo_keeps_history_and_accessor_copies
           (demo 100 [VRef 4; VRef 6]) 2 100 3 [VRef 4; VRef 6]
           ["1: DepositOperation"; "3: WithdrawalOperation"]).
  - apply demo_account.
  - repeat constructor.
Defined.

(** * Further properties of the code *)

(** ** The guards of execute and undo *)

(** X1.  For an instance of any of the three operation classes: when the
    status reads anything but ['I'], [execute] returns [False] and the state
    is the one before the call; when it reads anything but ['D'], [undo]
    does. *)
Theorem guarded_call_changes_nothing s o c attrs st :
  heap s !! o = Some (Instance c attrs) →
  is_Some (operation_kind c) →
  attrs !! "_Operation__status" = Some st →
  (py_ne_str st "I" = true → call_execute (VRef o) s = (Ret false, s))
  ∧ (py_ne_str st "D" = true → call_undo (VRef o) s = (Ret false, s)).
Proof.
  intros Ho Hc Hst.
  assert (attr_of s o "_Operation__status" = Some st) as Hattr
    by (unfold attr_of; by rewrite Ho).
  split; intros Hne.
  - unfold call_execute, class_of. rewrite Ho.
    destruct c; try (by destruct Hc).
    + by eapply deposit_execute_guard.
    + by eapply withdrawal_execute_guard.
    + by eapply deposit_execute_guard.
  - unfold call_undo, class_of. rewrite Ho.
    destruct c; try (by destruct Hc).
    + by eapply deposit_undo_guard.
    + by eapply withdrawal_undo_guard.
    + by eapply deposit_undo_guard.
Qed.

Lemma guarded_call_changes_nothing_witness :
  (call_execute (VRef 6) (demo_status "U" 100 []) = (Ret false, demo_status "U" 100 []))
  ∧ (call_undo (VRef 6) (demo_status "U" 100 []) = (Ret false, demo_status "U" 100 [])).
Proof.
  pose proof (guarded_call_changes_nothing (demo_status "U" 100 []) 6 CWithdrawalOperation
                (<["_Operation__status" := VStr "U"]> (withdrawal_attrs 3 2 40)) (VStr "U")
                eq_refl (ex_intro _ "WithdrawalOperation" eq_refl) eq_refl) as [He Hu].
  split; [apply He | apply Hu]; reflexivity.
Defined.

(** ** undo past its guard *)

Lemma account_with_attr_other s a bal h ops l n x :
  l ≠ a → account_at s a bal h ops → account_at (with_attr l n x s) a bal h ops.
Proof.
  intros Hne [(i & u & Ha) Hh]. unfold account_at, with_attr.
  destruct (heap s !! l) as [[c attrs|xs]|] eqn:Hl; [|by eauto..].
  simpl. rewrite lookup_insert_ne by done. split; [by eauto|].
  rewrite lookup_insert_ne; [done|]. intros ->. congruence.
Qed.

Lemma deposit_account_ne s o st a' v a bal h ops :
  deposit_at s o st a' v → account_at s a bal h ops → o ≠ a.
Proof.
  intros (c & attrs & Ho & Hc & _) [(i & u & Ha) _] ->.
  destruct Hc; congruence.
Qed.

Lemma withdrawal_account_ne s o st a' v a bal h ops :
  withdrawal_at s o st a' v → account_at s a bal h ops → o ≠ a.
Proof. intros (attrs & Ho & _) [(i & u & Ha) _] ->. congruence. Qed.

Lemma deposit_undo_state s o a v bal h ops i :
  account_at s a bal h ops →
  deposit_at s o "D" a v →
  attr_of s o "_Operation__id" = Some (VInt i) →
  let s2 := with_attr o "_DepositOperation__status" (VStr "U")
              (with_attr a "_balance" (VDec (bal - v)) s) in
  DepositOperation.undo (VRef o) s =
  (Ret true,
   if Qlt_bool (bal - v) 0
   then {| heap := heap s2; globals := globals s2;
           stdout := stdout s2 ++ [NegativeAfterUndo (pretty i +:+ ": DepositOperation")] |}
   else s2).
Proof.
  intros Hacc Hop Hid.
  destruct (deposit_at_attrs _ _ _ _ _ Hop) as (Hst & Hba & Hv).
  pose proof (account_attr_balance _ _ _ _ _ Hacc) as Hbal.
  pose proof (deposit_account_ne _ _ _ _ _ _ _ _ _ Hop Hacc) as Hne.
  unfold DepositOperation.undo, DepositOperation.__str__, Operation.status, Operation.id,
    DepositOperation.bank_account, DepositOperation.value.
  names.
  next_ret (getattr_Some _ _ _ _ Hst).
  change (py_ne_str (VStr "D") "D") with false. cbn beta iota.
  next_ret (getattr_Some _ _ _ _ Hba).
  next_ret (getattr_Some _ _ _ _ Hbal).
  next_ret (getattr_Some _ _ _ _ Hv).
  next_ret (py_sub_Decimal bal v s).
  next_ret (setattr_instance _ "_balance" (VDec (bal - v)) _ (attr_of_class _ _ _ _ Hbal)).
  set (s1 := with_attr a "_balance" (VDec (bal - v)) s).
  assert (deposit_at s1 o "D" a v) as Hop1 by (by apply deposit_with_attr).
  destruct (deposit_at_attrs _ _ _ _ _ Hop1) as (Hst1 & _ & _).
  next_ret (setattr_instance _ "_DepositOperation__status" (VStr "U") _
              (attr_of_class _ _ _ _ Hst1)).
  set (s2 := with_attr o "_DepositOperation__status" (VStr "U") s1).
  assert (deposit_at s2 o "D" a v) as Hop2 by (by apply deposit_with_attr).
  destruct (deposit_at_attrs _ _ _ _ _ Hop2) as (_ & Hba2 & _).
  assert (account_at s2 a (bal - v) h ops) as Hacc2
    by (apply account_with_attr_other; [done | by eapply account_with_balance]).
  next_ret (getattr_Some _ _ _ _ Hba2).
  next_ret (getattr_Some _ _ _ _ (account_attr_balance _ _ _ _ _ Hacc2)).
  next_ret (py_lt0_Decimal (bal - v) s2).
  destruct (Qlt_bool (bal - v) 0); [|done].
  assert (attr_of s2 o "_Operation__id" = Some (VInt i)) as Hid2.
  { unfold s2, s1. rewrite !attr_of_with_attr.
    by rewrite !decide_False by (intros (? & ? & ?); congruence). }
  rewrite bind_eq. rewrite bind_eq.
  next_ret (getattr_Some _ _ _ _ Hid2).
  reflexivity.
Qed.

Lemma account_at_heap s s' a bal h ops :
  heap s' = heap s → account_at s a bal h ops → account_at s' a bal h ops.
Proof. unfold account_at. by intros ->. Qed.

Lemma deposit_at_heap s s' o st a v :
  heap s' = heap s → deposit_at s o st a v → deposit_at s' o st a v.
Proof. unfold deposit_at. by intros ->. Qed.

Lemma attr_of_heap s s' l n : heap s' = heap s → attr_of s' l n = attr_of s l n.
Proof. unfold attr_of. by intros ->. Qed.

(** X2.  [DepositOperation.undo] on a deposit whose status reads ['D'],
    for a finite balance and amount whose difference fits the context: it
    returns [True], the balance goes down by the amount, the log is
    untouched, and the warning is printed, once and with [str(self)],
    exactly when the new balance is negative.  The ['U'] goes to
    [_DepositOperation__status]; the status still reads ['D']. *)
Theorem deposit_undo_when_done s o a v bal h ops i :
  account_at s a bal h ops →
  deposit_at s o "D" a v →
  attr_of s o "_Operation__id" = Some (VInt i) →
  in_context (bal - v) →
  let s' := snd (DepositOperation.undo (VRef o) s) in
  fst (DepositOperation.undo (VRef o) s) = Ret true
  ∧ BankAccount.balance (VRef a) s' = (Ret (VDec (bal - v)), s')
  ∧ history_of s' a = Some ops
  ∧ stdout s' =
    stdout s ++ (if Qlt_bool (bal - v) 0
                 then [NegativeAfterUndo (pretty i +:+ ": DepositOperation")] else [])
  ∧ attr_of s' o "_DepositOperation__status" = Some (VStr "U")
  ∧ Operation.status (VRef o) s' = (Ret (VStr "D"), s').
Proof.
  intros Hacc Hop Hid _.
  pose proof (deposit_account_ne _ _ _ _ _ _ _ _ _ Hop Hacc) as Hne.
  rewrite (deposit_undo_state _ _ _ _ _ _ _ _ Hacc Hop Hid). cbn [fst snd].
  set (s1 := with_attr a "_balance" (VDec (bal - v)) s).
  set (s2 := with_attr o "_DepositOperation__status" (VStr "U") s1).
  assert (deposit_at s2 o "D" a v) as Hop2
    by (apply deposit_with_attr; [done..|]; by apply deposit_with_attr).
  assert (account_at s2 a (bal - v) h ops) as Hacc2
    by (apply account_with_attr_other; [done | by eapply account_with_balance]).
  assert (attr_of s2 o "_DepositOperation__status" = Some (VStr "U")) as Hu.
  { unfold s2. rewrite attr_of_with_attr. rewrite decide_True; [done|].
    split; [done|]. split; [done|]. unfold s1. rewrite class_of_with_attr.
    destruct (deposit_at_attrs _ _ _ _ _ Hop) as (Hst & _). by eapply attr_of_class. }
  assert (stdout s2 = stdout s) as Hout
    by (unfold s2, s1; by rewrite !stdout_with_attr).
  split; [done|].
  destruct (Qlt_bool (bal - v) 0).
  - set (s3 := {| heap := heap s2 |}).
    assert (heap s3 = heap s2) as Hh by done.
    split; [by eapply balance_account_at, account_at_heap|].
    split; [by eapply account_history_of, account_at_heap|].
    split; [simpl; by rewrite Hout|].
    split; [by rewrite (attr_of_heap s2 s3)|].
    by eapply status_deposit_at, deposit_at_heap.
  - split; [by eapply balance_account_at|].
    split; [by eapply account_history_of|].
    split; [by rewrite app_nil_r|].
    split; [done | by eapply status_deposit_at].
Qed.

Lemma demo_status_account st bal log : account_at (demo_status st bal log) 2 bal 3 log.
Proof. split; [by exists 1, (VRef 1%positive) | done]. Qed.

Lemma demo_status_deposit st bal log : deposit_at (demo_status st bal log) 4 st 2 100.
Proof.
  exists CDepositOperation,
    (<["_Operation__status" := VStr st]> (deposit_attrs 1 (VStr "") 2 100)).
  by eauto 10.
Qed.

Lemma demo_status_withdrawal st bal log : withdrawal_at (demo_status st bal log) 6 st 2 40.
Proof.
  exists (<["_Operation__status" := VStr st]> (withdrawal_attrs 3 2 40)).
  by eauto 10.
Qed.

Lemma deposit_undo_when_done_witness :
  let s := demo_status "D" 50 [VRef 4] in
  let s' := snd (DepositOperation.undo (VRef 4) s) in
  fst (DepositOperation.undo (VRef 4) s) = Ret true
  ∧ BankAccount.balance (VRef 2) s' = (Ret (VDec (50 - 100)), s')
  ∧ history_of s' 2 = Some [VRef 4]
  ∧ stdout s' =
    stdout s ++ (if Qlt_bool (50 - 100) 0
                 then [NegativeAfterUndo (pretty 1 +:+ ": DepositOperation")] else [])
  ∧ attr_of s' 4 "_DepositOperation__status" = Some (VStr "U")
  ∧ Operation.status (VRef 4) s' = (Ret (VStr "D"), s').
Proof.
  apply (deposit_undo_when_done (demo_status "D" 50 [VRef 4]) 4 2 100 50 3 [VRef 4] 1).
  - apply demo_status_account.
  - apply demo_status_deposit.
  - reflexivity.
  - apply (in_context_int _ (-50)); reflexivity.
Defined.

Lemma withdrawal_undo_state s o a v bal h ops :
  account_at s a bal h ops →
  withdrawal_at s o "D" a v →
  WithdrawalOperation.undo (VRef o) s =
  (Ret true,
   with_attr o "_WithdrawalOperation__status" (VStr "U")
     (with_attr a "_balance" (VDec (bal + v)) s)).
Proof.
  intros Hacc Hop.
  destruct (withdrawal_at_attrs _ _ _ _ _ Hop) as (Hst & Hba & Hv).
  pose proof (account_attr_balance _ _ _ _ _ Hacc) as Hbal.
  unfold WithdrawalOperation.undo, Operation.status,
    WithdrawalOperation.bank_account, WithdrawalOperation.value.
  names.
  next_ret (getattr_Some _ _ _ _ Hst).
  change (py_ne_str (VStr "D") "D") with false. cbn beta iota.
  next_ret (getattr_Some _ _ _ _ Hba).
  next_ret (getattr_Some _ _ _ _ Hbal).
  next_ret (getattr_Some _ _ _ _ Hv).
  next_ret (py_add_Decimal bal v s).
  next_ret (setattr_instance _ "_balance" (VDec (bal + v)) _ (attr_of_class _ _ _ _ Hbal)).
  set (s1 := with_attr a "_balance" (VDec (bal + v)) s).
  assert (withdrawal_at s1 o "D" a v) as Hop1 by (by apply withdrawal_with_attr).
  destruct (withdrawal_at_attrs _ _ _ _ _ Hop1) as (Hst1 & _ & _).
  next_ret (setattr_instance _ "_WithdrawalOperation__status" (VStr "U") _
              (attr_of_class _ _ _ _ Hst1)).
  reflexivity.
Qed.

(** X3.  [WithdrawalOperation.undo] on a withdrawal whose status reads
    ['D'], for a finite balance and amount whose sum fits the context: it
    returns [True] and the balance goes up by the amount; there is no check
    and no warning, nothing is printed and the log is untouched.  The ['U']
    goes to [_WithdrawalOperation__status]; the status still reads ['D']. *)
Theorem withdrawal_undo_when_done s o a v bal h ops :
  account_at s a bal h ops →
  withdrawal_at s o "D" a v →
  in_context (bal + v) →
  let s' := snd (WithdrawalOperation.undo (VRef o) s) in
  fst (WithdrawalOperation.undo (VRef o) s) = Ret true
  ∧ BankAccount.balance (VRef a) s' = (Ret (VDec (bal + v)), s')
  ∧ history_of s' a = Some ops
  ∧ stdout s' = stdout s
  ∧ attr_of s' o "_WithdrawalOperation__status" = Some (VStr "U")
  ∧ Operation.status (VRef o) s' = (Ret (VStr "D"), s').
Proof.
  intros Hacc Hop _.
  pose proof (withdrawal_account_ne _ _ _ _ _ _ _ _ _ Hop Hacc) as Hne.
  rewrite (withdrawal_undo_state _ _ _ _ _ _ _ Hacc Hop). cbn [fst snd].
  set (s1 := with_attr a "_balance" (VDec (bal + v)) s).
  set (s2 := with_attr o "_WithdrawalOperation__status" (VStr "U") s1).
  assert (withdrawal_at s2 o "D" a v) as Hop2
    by (apply withdrawal_with_attr; [done..|]; by apply withdrawal_with_attr).
  assert (account_at s2 a (bal + v) h ops) as Hacc2
    by (apply account_with_attr_other; [done | by eapply account_with_balance]).
  split; [done|].
  split; [by eapply balance_account_at|].
  split; [by eapply account_history_of|].
  split; [unfold s2, s1; by rewrite !stdout_with_attr|].
  split; [|by eapply status_withdrawal_at].
  unfold s2. rewrite attr_of_with_attr. rewrite decide_True; [done|].
  split; [done|]. split; [done|]. unfold s1. rewrite class_of_with_attr.
  destruct (withdrawal_at_attrs _ _ _ _ _ Hop) as (Hst & _). by eapply attr_of_class.
Qed.

Lemma withdrawal_undo_when_done_witness :
  let s := demo_status "D" 60 [VRef 6] in
  let s' := snd (WithdrawalOperation.undo (VRef 6) s) in
  fst (WithdrawalOperation.undo (VRef 6) s) = Ret true
  ∧ BankAccount.balance (VRef 2) s' = (Ret (VDec (60 + 40)), s')
  ∧ history_of s' 2 = Some [VRef 6]
  ∧ stdout s' = stdout s
  ∧ attr_of s' 6 "_WithdrawalOperation__status" = Some (VStr "U")
  ∧ Operation.status (VRef 6) s' = (Ret (VStr "D"), s').
Proof.
  apply (withdrawal_undo_when_done (demo_status "D" 60 [VRef 6]) 6 2 40 60 3 [VRef 6]).
  - apply demo_status_account.
  - apply demo_status_withdrawal.
  - apply (in_context_int _ 100); reflexivity.
Defined.

(** ** What execute and undo never touch *)

Section Frame.
Context {B : Type} (f : state → B).
Hypothesis f_balance : ∀ v x, keeps f (setattr v "_balance" x).
Hypothesis f_deposit_status : ∀ v x, keeps f (setattr v "_DepositOperation__status" x).
Hypothesis f_withdrawal_status : ∀ v x, keeps f (setattr v "_WithdrawalOperation__status" x).
Hypothesis f_append : ∀ v x, keeps f (list_append v x).
Hypothesis f_print : ∀ o, keeps f (print o).

Ltac frame_body :=
  keeps_body;
  first [apply f_balance | apply f_deposit_status | apply f_withdrawal_status
        | apply f_append | apply f_print].

Lemma frame_deposit_execute self : keeps f (DepositOperation.execute self).
Proof using f_balance f_deposit_status f_append.
  unfold DepositOperation.execute, DepositOperation.bank_account,
    DepositOperation.value, Operation.status. names. frame_body.
Qed.

Lemma frame_deposit_undo self : keeps f (DepositOperation.undo self).
Proof using f_balance f_deposit_status f_print.
  unfold DepositOperation.undo, DepositOperation.bank_account, DepositOperation.__str__,
    DepositOperation.value, Operation.status, Operation.id. names. frame_body.
Qed.

Lemma frame_withdrawal_execute self : keeps f (WithdrawalOperation.execute self).
Proof using f_balance f_withdrawal_status f_append.
  unfold WithdrawalOperation.execute, WithdrawalOperation.bank_account,
    WithdrawalOperation.value, Operation.status. names. frame_body.
Qed.

Lemma frame_withdrawal_undo self : keeps f (WithdrawalOperation.undo self).
Proof using f_balance f_withdrawal_status.
  unfold WithdrawalOperation.undo, WithdrawalOperation.bank_account,
    WithdrawalOperation.value, Operation.status. names. frame_body.
Qed.

Lemma frame_run_call c : keeps f (run_call c).
Proof using All.
  intros s. destruct c as [op|op]; simpl.
  - unfold call_execute. destruct (class_of op s) as [[]|]; try done.
    + apply frame_deposit_execute.
    + apply frame_withdrawal_execute.
    + apply frame_deposit_execute.
  - unfold call_undo. destruct (class_of op s) as [[]|]; try done.
    + apply frame_deposit_undo.
    + apply frame_withdrawal_undo.
    + apply frame_deposit_undo.
Qed.

Lemma frame_run_calls cs s : f (run_calls cs s) = f s.
Proof using All.
  revert s. induction cs as [|c cs IH]; intros s; [done|].
  simpl. rewrite IH. apply frame_run_call.
Qed.

End Frame.

Lemma keeps_globals_setattr v n x : keeps globals (setattr v n x).
Proof.
  intros s. destruct v as [| | | |l]; try done.
  unfold setattr. destruct (heap s !! l) as [[c attrs|xs]|]; try done.
  simpl. apply globals_with_attr.
Qed.

Lemma keeps_globals_list_append v x : keeps globals (list_append v x).
Proof.
  intros s. destruct v as [| | | |l]; try done.
  unfold list_append. by destruct (heap s !! l) as [[c attrs|xs]|].
Qed.

Lemma keeps_class_setattr w v n x : keeps (class_of w) (setattr v n x).
Proof.
  intros s. destruct v as [| | | |l]; try done.
  unfold setattr. destruct (heap s !! l) as [[c attrs|xs]|]; try done.
  simpl. apply class_of_with_attr.
Qed.

Lemma keeps_class_list_append w v x : keeps (class_of w) (list_append v x).
Proof.
  intros s. destruct v as [| | | |l]; try done.
  unfold list_append. destruct (heap s !! l) as [[c attrs|xs]|] eqn:Hl; try done.
  destruct w as [| | | |l']; try done. unfold class_of. simpl.
  destruct (decide (l = l')) as [->|Hne].
  - by rewrite lookup_insert_eq, Hl.
  - by rewrite lookup_insert_ne.
Qed.

Lemma keeps_dom_setattr v n x : keeps (λ s, dom (heap s)) (setattr v n x).
Proof.
  intros s. destruct v as [| | | |l]; try done.
  unfold setattr, with_attr. destruct (heap s !! l) as [[c attrs|xs]|] eqn:Hl; try done.
  simpl. by apply dom_insert_lookup_L.
Qed.

Lemma keeps_dom_list_append v x : keeps (λ s, dom (heap s)) (list_append v x).
Proof.
  intros s. destruct v as [| | | |l]; try done.
  unfold list_append. destruct (heap s !! l) as [[c attrs|xs]|] eqn:Hl; try done.
  simpl. by apply dom_insert_lookup_L.
Qed.

(** Attributes other than the three that the methods assign. *)
Lemma run_calls_attr cs s l n :
  n ≠ "_balance" → n ≠ "_DepositOperation__status" → n ≠ "_WithdrawalOperation__status" →
  attr_of (run_calls cs s) l n = attr_of s l n.
Proof.
  intros H1 H2 H3. apply (frame_run_calls (λ s, attr_of s l n)).
  - intros v x. by apply keeps_attr_setattr.
  - intros v x. by apply keeps_attr_setattr.
  - intros v x. by apply keeps_attr_setattr.
  - intros v x. apply keeps_attr_list_append.
  - intros o. apply keeps_attr_print.
Qed.

Lemma run_calls_class cs s v : class_of v (run_calls cs s) = class_of v s.
Proof.
  apply (frame_run_calls (class_of v)).
  - intros w x. apply keeps_class_setattr.
  - intros w x. apply keeps_class_setattr.
  - intros w x. apply keeps_class_setattr.
  - intros w x. apply keeps_class_list_append.
  - done.
Qed.

(** X4.  Whatever calls of [execute] and [undo] a client makes, and
    whatever their outcome: no object is created or removed, no object
    changes its class, the module counters keep their values, and of all
    attributes only [_balance], [_DepositOperation__status] and
    [_WithdrawalOperation__status] are ever assigned. *)
Theorem calls_assign_three_attributes_only cs s :
  (∀ l n, n ≠ "_balance" → n ≠ "_DepositOperation__status" →
          n ≠ "_WithdrawalOperation__status" →
          attr_of (run_calls cs s) l n = attr_of s l n)
  ∧ (∀ v, class_of v (run_calls cs s) = class_of v s)
  ∧ dom (heap (run_calls cs s)) = dom (heap s)
  ∧ globals (run_calls cs s) = globals s.
Proof.
  split; [intros l n; apply run_calls_attr|].
  split; [intros v; apply run_calls_class|].
  split.
  - apply (frame_run_calls (λ s, dom (heap s))).
    + intros v x. apply keeps_dom_setattr.
    + intros v x. apply keeps_dom_setattr.
    + intros v x. apply keeps_dom_setattr.
    + intros v x. apply keeps_dom_list_append.
    + done.
  - apply (frame_run_calls globals).
    + intros v x. apply keeps_globals_setattr.
    + intros v x. apply keeps_globals_setattr.
    + intros v x. apply keeps_globals_setattr.
    + intros v x. apply keeps_globals_list_append.
    + done.
Qed.

Lemma calls_assign_three_attributes_only_witness :
  let cs := [Execute (VRef 4); Undo (VRef 4); Execute (VRef 5); Execute (VRef 6)] in
  attr_of (run_calls cs (demo 100 [])) 4 "_DepositOperation__value" =
  attr_of (demo 100 []) 4 "_DepositOperation__value".
Proof.
  apply (proj1 (calls_assign_three_attributes_only
                  [Execute (VRef 4); Undo (VRef 4); Execute (VRef 5); Execute (VRef 6)]
                  (demo 100 []))); discriminate.
Defined.

Lemma run_calls_getattr cs s v n :
  n ≠ "_balance" → n ≠ "_DepositOperation__status" → n ≠ "_WithdrawalOperation__status" →
  fst (getattr v n (run_calls cs s)) = fst (getattr v n s).
Proof.
  intros H1 H2 H3. destruct v as [| | | |l]; try done.
  by rewrite !getattr_attr_of, run_calls_attr.
Qed.

Lemma content_attr_of l s :
  Operation.content (VRef l) s =
  (match class_of (VRef l) s with
   | Some _ => match attr_of s l "_Operation__content" with
               | Some x => Ret x
               | None => Ret (VStr "")
               end
   | None => Raise AttributeError
   end, s).
Proof.
  unfold Operation.content, class_of, attr_of. names.
  destruct (heap s !! l) as [[c attrs|xs]|]; try done.
  by destruct (attrs !! "_Operation__content").
Qed.

(** X5.  The read-only properties other than the balance are stable: after
    any sequence of [execute] and [undo] calls, on any operations and with
    any outcome, [id], [status] and [content] of an operation, its
    [bank_account] and [value], and [id] and [user] of an account give
    what they gave before. *)
Theorem read_only_properties_are_stable cs s v :
  let s' := run_calls cs s in
  fst (Operation.id v s') = fst (Operation.id v s)
  ∧ fst (Operation.status v s') = fst (Operation.status v s)
  ∧ fst (Operation.content v s') = fst (Operation.content v s)
  ∧ fst (DepositOperation.bank_account v s') = fst (DepositOperation.bank_account v s)
  ∧ fst (DepositOperation.value v s') = fst (DepositOperation.value v s)
  ∧ fst (WithdrawalOperation.bank_account v s') = fst (WithdrawalOperation.bank_account v s)
  ∧ fst (WithdrawalOperation.value v s') = fst (WithdrawalOperation.value v s)
  ∧ fst (BankAccount.id v s') = fst (BankAccount.id v s)
  ∧ fst (BankAccount.user v s') = fst (BankAccount.user v s).
Proof.
  cbn zeta.
  unfold Operation.id, Operation.status, DepositOperation.bank_account,
    DepositOperation.value, WithdrawalOperation.bank_account, WithdrawalOperation.value,
    BankAccount.id, BankAccount.user. names.
  repeat split; try (by apply run_calls_getattr).
  destruct v as [| | | |l]; try done.
  rewrite !content_attr_of. cbn [fst].
  by rewrite run_calls_class, run_calls_attr.
Qed.

(** ** The funds check of a withdrawal *)

(** X6.  A withdrawal never overdraws: whatever the status of the
    operation, for a finite balance and amount, a balance that was not
    negative is not negative after [WithdrawalOperation.execute], and the
    log is the same.  When the difference of balance and amount fits the
    context, the new balance is either the old one or the old one minus the
    amount. *)
Theorem withdrawal_never_overdraws s o st a v bal h ops :
  account_at s a bal h ops →
  withdrawal_at s o st a v →
  ∃ bal', account_at (snd (WithdrawalOperation.execute (VRef o) s)) a bal' h ops
          ∧ ((0 <= bal)%Q → (0 <= bal')%Q)
          ∧ (in_context (bal - v) → bal' = bal ∨ bal' = (bal - v)%Q).
Proof.
  intros Hacc Hop.
  destruct (withdrawal_at_attrs _ _ _ _ _ Hop) as (Hst & _ & _).
  destruct (String.eqb st "I") eqn:Hi.
  - apply String.eqb_eq in Hi. subst st.
    destruct (Qlt_le_dec bal v) as [Hlt|Hle].
    + rewrite (withdrawal_execute_short _ _ _ _ _ _ _ Hacc Hop Hlt). simpl.
      exists bal. split; [|by auto].
      apply account_with_attr_other; [|done].
      by eapply withdrawal_account_ne.
    + destruct (withdrawal_after_execute _ _ _ _ _ _ _ Hacc Hop Hle) as (_ & Hacc' & _).
      exists (bal - v)%Q. split; [done|]. split; [intros _; lra | by right].
  - rewrite (withdrawal_execute_guard _ _ (VStr st)); [|done|by simpl; rewrite Hi].
    exists bal. by auto.
Qed.

Lemma withdrawal_never_overdraws_witness :
  (∃ bal', account_at (snd (WithdrawalOperation.execute (VRef 5) (demo 100 []))) 2 bal' 3 []
           ∧ ((0 <= 100)%Q → (0 <= bal')%Q)
           ∧ (in_context (100 - 150) → bal' = 100%Q ∨ bal' = (100 - 150)%Q))
  ∧ (∃ bal', account_at (snd (WithdrawalOperation.execute (VRef 6) (demo 100 []))) 2 bal' 3 []
             ∧ ((0 <= 100)%Q → (0 <= bal')%Q)
             ∧ (in_context (100 - 40) → bal' = 100%Q ∨ bal' = (100 - 40)%Q)).
Proof.
  split.
  - apply (withdrawal_never_overdraws (demo 100 []) 5 "I" 2 150 100 3 []).
    + apply demo_account.
    + apply demo_withdrawal_150.
  - apply (withdrawal_never_overdraws (demo 100 []) 6 "I" 2 40 100 3 []).
    + apply demo_account.
    + apply demo_withdrawal_40.
Defined.

(** ** Two readings of the log *)

Lemma account_at_result s r xs a bal h ops :
  heap s !! r = None →
  account_at s a bal h ops →
  account_at (set_heap (<[r := PyList xs]> (heap s)) s) a bal h ops.
Proof.
  intros Hr [(i & u & Ha) Hh]. unfold account_at. simpl.
  rewrite !lookup_insert_ne by (intros ->; congruence). by eauto.
Qed.

(** X7.  Every call of [operations_history] makes a list of its own: two
    calls in a row return two different list objects, both hold the same
    strings, and the log of the account is still what it was. *)
Theorem operations_history_twice s a bal h ops strs :
  account_at s a bal h ops →
  Forall2 (λ v t, operation_string s v = Some t) ops strs →
  let s1 := snd (BankAccount.operations_history (VRef a) s) in
  let s2 := snd (BankAccount.operations_history (VRef a) s1) in
  ∃ r1 r2,
    fst (BankAccount.operations_history (VRef a) s) = Ret (VRef r1)
    ∧ fst (BankAccount.operations_history (VRef a) s1) = Ret (VRef r2)
    ∧ r1 ≠ r2
    ∧ list_at s2 r1 = Some (VStr <$> strs)
    ∧ list_at s2 r2 = Some (VStr <$> strs)
    ∧ history_of s2 a = Some ops.
Proof.
  intros Hacc Hstrs.
  pose proof (fresh_loc_None s) as Hr1.
  rewrite (operations_history_state _ _ _ _ _ _ Hacc Hstrs). cbn [fst snd].
  set (r1 := fresh (dom (heap s))) in *.
  set (s1 := set_heap (<[r1 := PyList (VStr <$> strs)]> (heap s)) s).
  assert (account_at s1 a bal h ops) as Hacc1 by (by apply account_at_result).
  assert (Forall2 (λ v t, operation_string s1 v = Some t) ops strs) as Hstrs1.
  { eapply Forall2_impl; [exact Hstrs|]. intros v t Hv. simpl.
    unfold s1. by rewrite operation_string_result. }
  pose proof (fresh_loc_None s1) as Hr2.
  rewrite (operations_history_state _ _ _ _ _ _ Hacc1 Hstrs1). cbn [fst snd].
  set (r2 := fresh (dom (heap s1))) in *.
  assert (r1 ≠ r2) as Hne.
  { intros Heq. rewrite <- Heq in Hr2. unfold s1 in Hr2. simpl in Hr2.
    by rewrite lookup_insert_eq in Hr2. }
  exists r1, r2. split; [done|]. split; [done|]. split; [done|].
  split; [|split].
  - unfold list_at. simpl. rewrite lookup_insert_ne by done. by rewrite lookup_insert_eq.
  - unfold list_at. simpl. by rewrite lookup_insert_eq.
  - apply history_of_result; [done|]. by eapply account_history_of.
Qed.

Lemma operations_history_twice_witness :
  let s := demo 100 [VRef 4; VRef 6] in
  let s1 := snd (BankAccount.operations_history (VRef 2) s) in
  let s2 := snd (BankAccount.operations_history (VRef 2) s1) in
  ∃ r1 r2,
    fst (BankAccount.operations_history (VRef 2) s) = Ret (VRef r1)
    ∧ fst (BankAccount.operations_history (VRef 2) s1) = Ret (VRef r2)
    ∧ r1 ≠ r2
    ∧ list_at s2 r1 = Some (VStr <$> ["1: DepositOperation"; "3: WithdrawalOperation"])
    ∧ list_at s2 r2 = Some (VStr <$> ["1: DepositOperation"; "3: WithdrawalOperation"])
    ∧ history_of s2 2 = Some [VRef 4; VRef 6].
Proof.
  apply (operations_history_twice (demo 100 [VRef 4; VRef 6]) 2 100 3 [VRef 4; VRef 6]
           ["1: DepositOperation"; "3: WithdrawalOperation"]).
  - apply demo_account.
  - constructor; [reflexivity|]. constructor; [reflexivity|]. constructor.
Defined.

(** ** Call sequences as a ledger *)

Lemma heap_with_attr l n x s l' :
  heap (with_attr l n x s) !! l' =
  match heap s !! l' with
  | Some (Instance c attrs) =>
      Some (Instance c (if bool_decide (l = l') then <[n := x]> attrs else attrs))
  | other => other
  end.
Proof.
  unfold with_attr. destruct (heap s !! l) as [[c attrs|xs]|] eqn:Hl.
  - simpl. destruct (decide (l = l')) as [<-|Hne].
    + by rewrite lookup_insert_eq, Hl, bool_decide_eq_true_2.
    + rewrite lookup_insert_ne by done.
      destruct (heap s !! l') as [[]|]; try done. by rewrite bool_decide_eq_false_2.
  - destruct (heap s !! l') as [[c' attrs'|]|] eqn:Hl'; try done.
    rewrite bool_decide_eq_false_2; [done|]. intros ->. congruence.
  - destruct (heap s !! l') as [[c' attrs'|]|] eqn:Hl'; try done.
    rewrite bool_decide_eq_false_2; [done|]. intros ->. congruence.
Qed.

Lemma account_at_fun s a bal h ops bal' h' ops' :
  account_at s a bal h ops → account_at s a bal' h' ops' →
  bal' = bal ∧ h' = h ∧ ops' = ops.
Proof.
  intros Hacc Hacc'.
  pose proof (account_attr_balance _ _ _ _ _ Hacc) as Hb.
  pose proof (account_attr_balance _ _ _ _ _ Hacc') as Hb'.
  pose proof (account_attr_history _ _ _ _ _ Hacc) as Hh.
  pose proof (account_attr_history _ _ _ _ _ Hacc') as Hh'.
  assert (bal' = bal) as -> by congruence.
  assert (h' = h) as -> by congruence.
  destruct Hacc as [_ Hl], Hacc' as [_ Hl']. split; [done|]. split; [done|]. congruence.
Qed.

(** A change of the balance of one account keeps every account an
    account. *)
Lemma account_at_balance_step s a0 bal0 h0 ops0 nb a bal h ops :
  account_at s a0 bal0 h0 ops0 →
  account_at s a bal h ops →
  ∃ bal', account_at (with_attr a0 "_balance" (VDec nb) s) a bal' h ops.
Proof.
  intros Hacc0 Hacc. destruct (decide (a0 = a)) as [->|Hne].
  - destruct (account_at_fun _ _ _ _ _ _ _ _ Hacc0 Hacc) as (-> & -> & ->).
    exists nb. by eapply account_with_balance.
  - exists bal. by apply account_with_attr_other.
Qed.

Lemma shaped_with_balance s a0 bal0 h0 ops0 nb :
  shaped s → account_at s a0 bal0 h0 ops0 →
  shaped (with_attr a0 "_balance" (VDec nb) s).
Proof.
  intros Hs Hacc0 l c Hl. rewrite heap_with_attr in Hl.
  destruct (heap s !! l) as [[k attrs|xs]|] eqn:Hsl; simplify_eq; [|done].
  specialize (Hs _ _ Hsl). unfold cell_shaped in *.
  destruct k; try done.
  - destruct Hs as (bal & h & ops & Hacc).
    destruct (account_at_balance_step _ _ _ _ _ nb _ _ _ _ Hacc0 Hacc) as (bal' & ?).
    by eauto.
  - destruct Hs as (a & v & bal & h & ops & Hop & Hacc).
    destruct (account_at_balance_step _ _ _ _ _ nb _ _ _ _ Hacc0 Hacc) as (bal' & ?).
    exists a, v, bal', h, ops. split; [by apply deposit_with_attr | done].
  - destruct Hs as (a & v & bal & h & ops & Hop & Hacc).
    destruct (account_at_balance_step _ _ _ _ _ nb _ _ _ _ Hacc0 Hacc) as (bal' & ?).
    exists a, v, bal', h, ops. split; [by apply withdrawal_with_attr | done].
  - destruct Hs as (a & v & bal & h & ops & Hop & Hacc).
    destruct (account_at_balance_step _ _ _ _ _ nb _ _ _ _ Hacc0 Hacc) as (bal' & ?).
    exists a, v, bal', h, ops. split; [by apply deposit_with_attr | done].
Qed.

(** The ['E'] that a refused withdrawal leaves on itself keeps the heap
    shaped. *)
Lemma shaped_with_refusal s o a0 v0 :
  shaped s → withdrawal_at s o "I" a0 v0 →
  shaped (with_attr o "_WithdrawalOperation__status" (VStr "E") s).
Proof.
  intros Hs Hop0 l c Hl. rewrite heap_with_attr in Hl.
  destruct (heap s !! l) as [[k attrs|xs]|] eqn:Hsl; simplify_eq; [|done].
  specialize (Hs _ _ Hsl). unfold cell_shaped in *.
  destruct k; try done.
  - destruct Hs as (bal & h & ops & Hacc). exists bal, h, ops.
    apply account_with_attr_other; [|done]. by eapply withdrawal_account_ne.
  - destruct Hs as (a & v & bal & h & ops & Hop & Hacc).
    exists a, v, bal, h, ops. split; [by apply deposit_with_attr|].
    apply account_with_attr_other; [|done]. by eapply withdrawal_account_ne.
  - destruct Hs as (a & v & bal & h & ops & Hop & Hacc).
    exists a, v, bal, h, ops. split; [by apply withdrawal_with_attr|].
    apply account_with_attr_other; [|done]. by eapply withdrawal_account_ne.
  - destruct Hs as (a & v & bal & h & ops & Hop & Hacc).
    exists a, v, bal, h, ops. split; [by apply deposit_with_attr|].
    apply account_with_attr_other; [|done]. by eapply withdrawal_account_ne.
Qed.

Lemma deposit_execute_step s o a0 v0 bal0 h0 ops0 a bal h ops :
  shaped s →
  deposit_at s o "I" a0 v0 → account_at s a0 bal0 h0 ops0 →
  account_at s a bal h ops →
  let s' := snd (DepositOperation.execute (VRef o) s) in
  shaped s'
  ∧ account_at s' a (if bool_decide (a0 = a) then bal + v0 else bal)%Q h ops.
Proof.
  intros Hs Hop Hacc0 Hacc. simpl.
  rewrite (deposit_execute_state _ _ _ _ _ _ _ Hacc0 Hop). simpl.
  split; [by eapply shaped_with_balance|].
  case_bool_decide as Ha.
  - subst a0. destruct (account_at_fun _ _ _ _ _ _ _ _ Hacc Hacc0) as (-> & -> & ->).
    by eapply account_with_balance.
  - by apply account_with_attr_other.
Qed.

Lemma withdrawal_execute_step s o a0 v0 bal0 h0 ops0 a bal h ops :
  shaped s →
  withdrawal_at s o "I" a0 v0 → account_at s a0 bal0 h0 ops0 →
  account_at s a bal h ops →
  let s' := snd (WithdrawalOperation.execute (VRef o) s) in
  shaped s'
  ∧ account_at s' a
      (if bool_decide (a0 = a)
       then (if Qlt_bool (bal - v0) 0 then bal else bal - v0)
       else bal)%Q h ops.
Proof.
  intros Hs Hop Hacc0 Hacc. simpl.
  assert (bool_decide (a0 = a) = true → bal0 = bal) as Hsame.
  { intros Ha%bool_decide_eq_true. subst a0.
    by destruct (account_at_fun _ _ _ _ _ _ _ _ Hacc Hacc0) as (-> & _). }
  destruct (Qlt_bool (bal0 - v0) 0) eqn:Hneg.
  - apply Qlt_bool_minus in Hneg as Hlt.
    rewrite (withdrawal_execute_short _ _ _ _ _ _ _ Hacc0 Hop Hlt). simpl.
    split; [by eapply shaped_with_refusal|].
    assert ((if bool_decide (a0 = a)
             then (if Qlt_bool (bal - v0) 0 then bal else bal - v0) else bal)%Q = bal) as ->.
    { destruct (bool_decide (a0 = a)) eqn:Ha; [|done].
      rewrite <- (Hsame eq_refl). by rewrite Hneg. }
    apply account_with_attr_other; [|done]. by eapply withdrawal_account_ne.
  - apply Qlt_bool_minus_false in Hneg as Hle.
    rewrite (withdrawal_execute_enough _ _ _ _ _ _ _ Hacc0 Hop Hle). simpl.
    split; [by eapply shaped_with_balance|].
    destruct (bool_decide (a0 = a)) eqn:Ha.
    + rewrite <- (Hsame eq_refl). rewrite Hneg.
      apply bool_decide_eq_true in Ha. subst a0.
      destruct (account_at_fun _ _ _ _ _ _ _ _ Hacc Hacc0) as (_ & -> & ->).
      by eapply account_with_balance.
    + apply bool_decide_eq_false in Ha. by apply account_with_attr_other.
Qed.

(** One call on a shaped heap. *)
Lemma run_call_step s c a bal h ops :
  shaped s → modelled_call s c = true →
  account_at s a bal h ops →
  shaped (snd (run_call c s))
  ∧ account_at (snd (run_call c s)) a (balance_after s c a bal) h ops.
Proof.
  intros Hs Hm Hacc. unfold modelled_call in Hm.
  destruct c as [op|op]; simpl in *.
  - unfold call_execute. destruct op as [| | | |o]; try done.
    unfold class_of in *.
    destruct (heap s !! o) as [[k attrs|xs]|] eqn:Ho; try done.
    pose proof (Hs _ _ Ho) as Hk. unfold cell_shaped in Hk.
    destruct k; try done.
    + destruct Hk as (a0 & v0 & bal0 & h0 & ops0 & Hop & Hacc0).
      destruct (deposit_at_attrs _ _ _ _ _ Hop) as (_ & -> & ->).
      by eapply deposit_execute_step.
    + destruct Hk as (a0 & v0 & bal0 & h0 & ops0 & Hop & Hacc0).
      destruct (withdrawal_at_attrs _ _ _ _ _ Hop) as (_ & -> & ->).
      by eapply withdrawal_execute_step.
    + destruct Hk as (a0 & v0 & bal0 & h0 & ops0 & Hop & Hacc0).
      destruct (deposit_at_attrs _ _ _ _ _ Hop) as (_ & -> & ->).
      by eapply deposit_execute_step.
  - unfold call_undo. destruct op as [| | | |o]; try done.
    unfold class_of in *.
    destruct (heap s !! o) as [[k attrs|xs]|] eqn:Ho; try done.
    pose proof (Hs _ _ Ho) as Hk. unfold cell_shaped in Hk.
    destruct k; try done.
    + destruct Hk as (a0 & v0 & bal0 & h0 & ops0 & Hop & Hacc0).
      destruct (deposit_at_attrs _ _ _ _ _ Hop) as (Hst & _).
      by rewrite (deposit_undo_guard _ _ (VStr "I")).
    + destruct Hk as (a0 & v0 & bal0 & h0 & ops0 & Hop & Hacc0).
      destruct (withdrawal_at_attrs _ _ _ _ _ Hop) as (Hst & _).
      by rewrite (withdrawal_undo_guard _ _ (VStr "I")).
    + destruct Hk as (a0 & v0 & bal0 & h0 & ops0 & Hop & Hacc0).
      destruct (deposit_at_attrs _ _ _ _ _ Hop) as (Hst & _).
      by rewrite (deposit_undo_guard _ _ (VStr "I")).
Qed.

(** What the ledger reads of an operation does not change. *)
Lemma balance_after_frame s c0 c a bal :
  balance_after (snd (run_call c0 s)) c a bal = balance_after s c a bal.
Proof.
  assert (∀ v, class_of v (snd (run_call c0 s)) = class_of v s) as Hc.
  { intros v. apply (run_calls_class [c0]). }
  assert (∀ l n, n ≠ "_balance" → n ≠ "_DepositOperation__status" →
                 n ≠ "_WithdrawalOperation__status" →
                 attr_of (snd (run_call c0 s)) l n = attr_of s l n) as Ha.
  { intros l n. apply (run_calls_attr [c0]). }
  destruct c as [op|op]; [|done]. destruct op as [| | | |o]; try done.
  unfold balance_after. rewrite Hc. by rewrite !Ha by done.
Qed.

Lemma replay_frame s c0 cs a bal :
  replay (snd (run_call c0 s)) cs a bal = replay s cs a bal.
Proof.
  unfold replay. revert bal. induction cs as [|c cs IH]; intros bal; [done|].
  simpl. by rewrite balance_after_frame, IH.
Qed.

Lemma modelled_call_frame s c0 c :
  modelled_call (snd (run_call c0 s)) c = modelled_call s c.
Proof.
  unfold modelled_call. change (snd (run_call c0 s)) with (run_calls [c0] s).
  by rewrite run_calls_class.
Qed.

Lemma run_calls_ledger cs s a bal h ops :
  shaped s →
  Forall (λ c, modelled_call s c = true) cs →
  account_at s a bal h ops →
  shaped (run_calls cs s)
  ∧ account_at (run_calls cs s) a (replay s cs a bal) h ops.
Proof.
  revert s bal. induction cs as [|c cs IH]; intros s bal Hs Hm Hacc; [done|].
  apply Forall_cons in Hm as [Hc Hm].
  destruct (run_call_step _ _ _ _ _ _ Hs Hc Hacc) as [Hs1 Hacc1].
  simpl. rewrite <- (replay_frame s c).
  apply IH; [done| |done].
  eapply Forall_impl; [exact Hm|]. intros c'. simpl. by rewrite modelled_call_frame.
Qed.

Lemma demo_shaped bal log : shaped (demo bal log).
Proof.
  unfold shaped. change (heap (demo bal log)) with (demo_heap bal log).
  unfold demo_heap.
  apply map_Forall_insert_2; [done|].
  apply map_Forall_insert_2; [exists bal, 3%positive, log; apply demo_account|].
  apply map_Forall_insert_2; [done|].
  apply map_Forall_insert_2;
    [exists 2%positive, 100%Q, bal, 3%positive, log;
     split; [apply demo_deposit | apply demo_account]|].
  apply map_Forall_insert_2;
    [exists 2%positive, 150%Q, bal, 3%positive, log;
     split; [apply demo_withdrawal_150 | apply demo_account]|].
  apply map_Forall_insert_2;
    [exists 2%positive, 40%Q, bal, 3%positive, log;
     split; [apply demo_withdrawal_40 | apply demo_account]|].
  apply map_Forall_insert_2;
    [exists 2%positive, 5%Q, bal, 3%positive, log;
     split; [apply demo_interest | apply demo_account]|].
  apply map_Forall_empty.
Qed.

(** X8.  On a heap of instances in their initial shape, a sequence of
    [execute] and [undo] calls acts on an account as a plain ledger, as
    long as every number computed for its balance fits the context: every
    [execute] of a deposit on the account adds its amount, also when the
    same deposit is executed again; every [execute] of a withdrawal on it
    subtracts its amount unless the balance would drop below zero; [undo]
    and calls on other accounts change nothing.  The log of the account
    stays what it was, and the heap keeps its shape (every status still
    reads ['I']). *)
Theorem call_sequence_is_a_ledger cs s a bal h ops :
  shaped s →
  Forall (λ c, modelled_call s c = true) cs →
  account_at s a bal h ops →
  replay_in_context s cs a bal →
  let s' := run_calls cs s in
  shaped s'
  ∧ BankAccount.balance (VRef a) s' = (Ret (VDec (replay s cs a bal)), s')
  ∧ history_of s' a = Some ops.
Proof.
  intros Hs Hm Hacc _.
  destruct (run_calls_ledger _ _ _ _ _ _ Hs Hm Hacc) as [Hs' Hacc'].
  split; [done|].
  split; [by eapply balance_account_at | by eapply account_history_of].
Qed.

Lemma call_sequence_is_a_ledger_witness :
  let cs := [Execute (VRef 4); Execute (VRef 4); Undo (VRef 4); Execute (VRef 5);
             Execute (VRef 6); Execute (VRef 5); Undo (VRef 6); Execute (VRef 7)] in
  let s' := run_calls cs (demo 0 []) in
  shaped s'
  ∧ BankAccount.balance (VRef 2) s' = (Ret (VDec 15), s')
  ∧ history_of s' 2 = Some [].
Proof.
  apply (call_sequence_is_a_ledger
           [Execute (VRef 4); Execute (VRef 4); Undo (VRef 4); Execute (VRef 5);
            Execute (VRef 6); Execute (VRef 5); Undo (VRef 6); Execute (VRef 7)]
           (demo 0 []) 2 0 3 []).
  - apply demo_shaped.
  - repeat constructor.
  - apply demo_account.
  - repeat split; intros q Hq; vm_compute in Hq; try discriminate;
      injection Hq as <-.
    + by apply (in_context_int _ 100).
    + by apply (in_context_int _ 200).
    + by apply (in_context_int _ 50).
    + by apply (in_context_int _ 10).
    + by apply (in_context_int _ (-140)).
    + by apply (in_context_int _ 15).
Defined.
